(** * mcp-server-qdrant: the hybrid HTTP bridge and the OpenAI embedding provider

    A shallow embedding of [src/mcp_server_qdrant/http_app.py] and of
    [src/mcp_server_qdrant/embeddings/openai_provider.py].

    Python values decoded from a JSON body are the inductive type [json];
    exceptions are values of [exn]; code that awaits the vector-store
    collaborator runs in a small state-and-error monad whose state is the
    log of collaborator calls made so far. *)

From Stdlib Require Import List String Ascii ZArith Bool Lia Arith.
From Stdlib Require Import Permutation Sorted.
From Stdlib Require Import Floats.SpecFloat.
Import ListNotations.

Local Open Scope list_scope.
Local Open Scope string_scope.

(** ** Python [str] operations used by the sources *)

Module PyStr.

(** [s.startswith(p)] *)
Fixpoint startswith (s p : string) : bool :=
  match p, s with
  | EmptyString, _ => true
  | String _ _, EmptyString => false
  | String a p', String b s' => Ascii.eqb a b && startswith s' p'
  end.

(** [sub in s] on two strings: some suffix of [s] starts with [sub]. *)
Fixpoint contains (sub s : string) : bool :=
  startswith s sub ||
  match s with
  | EmptyString => false
  | String _ s' => contains sub s'
  end.

(** [s.split(sep, 1)] for a one-character separator: the list has one
    element when [sep] does not occur and two when it does, cut at the
    first occurrence. *)
Fixpoint split1 (sep : ascii) (s : string) : list string :=
  match s with
  | EmptyString => [EmptyString]
  | String c s' =>
      if Ascii.eqb c sep then [EmptyString; s']
      else match split1 sep s' with
           | [] => []
           | hd :: tl => String c hd :: tl
           end
  end.

(** [s[n:]] for [n >= 0] *)
Fixpoint slice_from (n : nat) (s : string) : string :=
  match n, s with
  | O, _ => s
  | S _, EmptyString => EmptyString
  | S n', String _ s' => slice_from n' s'
  end.

(** [c.lower()] on one character of a latin-1 decoded string: the
    letters A-Z and the accented capitals 0xC0-0xDE (0xD7, the
    multiplication sign, apart) move 32 code points up. *)
Definition lower_char (c : ascii) : ascii :=
  let n := nat_of_ascii c in
  if ((65 <=? n) && (n <=? 90))%nat
     || ((192 <=? n) && (n <=? 222) && negb (n =? 215))%nat
  then ascii_of_nat (n + 32)
  else c.

(** [s.lower()] *)
Fixpoint lower (s : string) : string :=
  match s with
  | EmptyString => EmptyString
  | String c s' => String (lower_char c) (lower s')
  end.

End PyStr.

(** ** Python values decoded from JSON *)

#[local] Set Warnings "-register-all".

Inductive json : Type :=
| JNull
| JBool (b : bool)
| JInt (z : Z)
| JFloat (f : spec_float)
| JStr (s : string)
| JArr (items : list json)
| JObj (fields : list (string * json)).

Module Py.

(** Truth value of an object, as [not x] and [x or y] test it. *)
Definition truthy (v : json) : bool :=
  match v with
  | JNull => false
  | JBool b => b
  | JInt z => negb (Z.eqb z 0)
  | JFloat (S754_zero _) => false
  | JFloat _ => true
  | JStr s => negb (String.eqb s "")
  | JArr l => match l with [] => false | _ => true end
  | JObj kv => match kv with [] => false | _ => true end
  end.

(** [x or y] *)
Definition or (x y : json) : json := if truthy x then x else y.

(** [type(v).__name__] *)
Definition type_name (v : json) : string :=
  match v with
  | JNull => "NoneType"
  | JBool _ => "bool"
  | JInt _ => "int"
  | JFloat _ => "float"
  | JStr _ => "str"
  | JArr _ => "list"
  | JObj _ => "dict"
  end.

(** [d.get(k)] on the fields of a dict: the first binding of [k], [None]
    when there is none. *)
Fixpoint lookup (k : string) (kv : list (string * json)) : json :=
  match kv with
  | [] => JNull
  | (k', v) :: kv' => if String.eqb k' k then v else lookup k kv'
  end.

(** [v == s] for a string literal [s] *)
Definition eq_str (v : json) (s : string) : bool :=
  match v with
  | JStr t => String.eqb t s
  | _ => false
  end.

End Py.

(** ** Exceptions and outcomes *)

Inductive exn : Type :=
| ValueError (msg : string)
| AttributeError (msg : string)
| TypeError (msg : string)
| OtherError (cls msg : string).

(** [str(exc)] *)
Definition exn_str (e : exn) : string :=
  match e with
  | ValueError m | AttributeError m | TypeError m | OtherError _ m => m
  end.

Inductive outcome (A : Type) : Type :=
| Ok (a : A)
| Raise (e : exn).

Arguments Ok {A} a.
Arguments Raise {A} e.

(** Attribute lookup of [attr] on a value that has no such attribute. *)
Definition no_attribute {A} (v : json) (attr : string) : outcome A :=
  Raise (AttributeError
           ("'" ++ Py.type_name v ++ "' object has no attribute '" ++ attr ++ "'")).

(** [v.get(k)]: defined on dicts only. *)
Definition py_get (v : json) (k : string) : outcome json :=
  match v with
  | JObj kv => Ok (Py.lookup k kv)
  | _ => no_attribute v "get"
  end.

(** ** ToolNameResolver: [_resolve_tool_name] *)

Definition known_namespaces : list string :=
  ["qdrant"; "qdrant-rag"; "qdrant-rag-mcp"].

(** [x in {...}] on the literal set of namespaces *)
Definition in_known_namespaces (ns : string) : bool :=
  existsb (String.eqb ns) known_namespaces.

Definition dot : ascii := "."%char.

(** The body of [_resolve_tool_name] once [raw_name] is known to be a
    non-empty [str]. *)
Definition resolve_str (raw_name : string) : outcome string :=
  if PyStr.contains "." raw_name then
    match PyStr.split1 dot raw_name with
    | [namespace; rest] =>
        if in_known_namespaces namespace then Ok rest else Ok raw_name
    | l =>
        Raise (ValueError
                 (if (List.length l <? 2)%nat
                  then "not enough values to unpack (expected 2, got 1)"
                  else "too many values to unpack (expected 2)"))
    end
  else if PyStr.startswith raw_name "qdrant_" then
    Ok (PyStr.slice_from (String.length "qdrant_") raw_name)
  else Ok raw_name.

(** [_resolve_tool_name(raw_name)].  The argument is what
    [params.get("name")] returned, so any decoded value.  On a truthy value
    that is not a [str] the first string operation reached raises: ["." in x]
    is a [TypeError] on numbers and booleans, and on a list or dict it is a
    membership test, after which [.split] or [.startswith] is missing. *)
Definition _resolve_tool_name (raw_name : json) : outcome string :=
  if negb (Py.truthy raw_name) then Raise (ValueError "Missing tool name")
  else
    match raw_name with
    | JStr s => resolve_str s
    | JArr l =>
        if existsb (fun v => Py.eq_str v ".") l
        then no_attribute raw_name "split"
        else no_attribute raw_name "startswith"
    | JObj kv =>
        if existsb (fun p => String.eqb (fst p) ".") kv
        then no_attribute raw_name "split"
        else no_attribute raw_name "startswith"
    | _ =>
        Raise (TypeError
                 ("argument of type '" ++ Py.type_name raw_name
                  ++ "' is not iterable"))
    end.

(** ** ContentNormalizer: [_serialize_content] *)

(** What [_serialize_content] asks of a result item: whether it has a
    [model_dump] attribute (and what calling it returns), whether it is a
    [dict] (and which), and its [str()]. *)
Record PyObject : Type := {
  model_dump : option json;
  as_dict : option (list (string * json));
  to_str : string
}.

(** A [str] instance: no [model_dump], not a dict, and [str(s)] is [s]. *)
Definition str_object (s : string) : PyObject :=
  {| model_dump := None; as_dict := None; to_str := s |}.

(** The block appended for one item by the [if / elif / else] of the loop. *)
Definition serialize_item (item : PyObject) : json :=
  match model_dump item with
  | Some dumped => dumped
  | None =>
      match as_dict item with
      | Some kv => JObj kv
      | None => JObj [("type", JStr "text"); ("text", JStr (to_str item))]
      end
  end.

(** The loop: [content] starts empty and every item appends one block. *)
Definition _serialize_content (items : list PyObject) : list json :=
  fold_left (fun content item => (content ++ [serialize_item item])%list)
            items [].

(** ** The server object and the vector-store collaborator *)

(** [Entry] of [mcp_server_qdrant.qdrant]: the two fields the bridge reads. *)
Record Entry : Type := {
  content : json;
  metadata : json
}.

(** [models.Filter] of [qdrant_client], built from the keyword arguments
    [query_filter]: the bridge only builds it and hands it on. *)
Record Filter : Type := { filter_kwargs : json }.

(** One awaited call on [mcp.qdrant_connector]. *)
Inductive call : Type :=
| CallStore (entry : Entry) (collection_name : json)
| CallSearch (query collection_name : json) (limit : Z)
             (query_filter : option Filter).

(** The process-wide [mcp] object and the library classes the bridge uses.
    The replies of the connector may depend on the calls made before. *)
Class Server : Type := {
  (** [mcp.name] *)
  mcp_name : string;
  (** [mcp.qdrant_settings.collection_name], a [str] or [None] *)
  settings_collection_name : option string;
  (** [mcp.qdrant_settings.search_limit] *)
  settings_search_limit : Z;
  (** the tools of the registry *)
  Tool : Type;
  (** [await mcp._tool_manager.get_tools()]: the dict from names to tools,
      as its items in insertion order, or the exception it raises *)
  get_tools : outcome (list (string * Tool));
  (** [tool.to_mcp_tool().model_dump()] *)
  tool_dump : Tool -> json;
  (** the exception, if any, that [Entry(content=..., metadata=...)] raises *)
  entry_error : json -> json -> option exn;
  (** the exception, if any, that building [models.Filter] from the
      keyword arguments [query_filter] raises *)
  filter_error : json -> option exn;
  (** the exception, if any, that [qdrant_connector.store] raises *)
  store_reply : list call -> Entry -> json -> option exn;
  (** what [qdrant_connector.search] returns or raises *)
  search_reply :
    list call -> json -> json -> Z -> option Filter -> outcome (list Entry);
  (** [str(v)] on a value that is not a [str] *)
  py_repr : json -> string
}.

(** What [json.dumps(v, allow_nan=False)] accepts of a decoded value: no
    [nan], [inf] or [-inf] anywhere in it.  The decoder yields such floats
    for the literals [NaN], [Infinity] and [-Infinity] and for numbers out
    of range. *)
Fixpoint json_compliant (v : json) : bool :=
  match v with
  | JFloat S754_nan | JFloat (S754_infinity _) => false
  | JArr items => forallb json_compliant items
  | JObj fields => forallb (fun '(_, x) => json_compliant x) fields
  | _ => true
  end.

(** ** The monad of the request handlers

    A computation reads and extends the log of collaborator calls and either
    returns or raises. *)

Definition M (A : Type) : Type := list call -> outcome A * list call.

Definition ret {A} (a : A) : M A := fun log => (Ok a, log).

Definition raise {A} (e : exn) : M A := fun log => (Raise e, log).

Definition bind {A B} (m : M A) (k : A -> M B) : M B :=
  fun log =>
    match m log with
    | (Ok a, log') => k a log'
    | (Raise e, log') => (Raise e, log')
    end.

Definition lift {A} (o : outcome A) : M A := fun log => (o, log).

(** [try: m  except Exception as exc: ...]: the exception becomes a value. *)
Definition attempt {A} (m : M A) : M (A + exn) :=
  fun log =>
    match m log with
    | (Ok a, log') => (Ok (inl a), log')
    | (Raise e, log') => (Ok (inr e), log')
    end.

Notation "x <- m ;; k" := (bind m (fun x => k))
  (at level 61, m at next level, right associativity).

Section Bridge.

Context {srv : Server}.

(** [str(v)], as an f-string renders [{v}] *)
Definition py_str (v : json) : string :=
  match v with
  | JStr s => s
  | _ => py_repr v
  end.

(** [Entry(content=information, metadata=metadata)] *)
Definition Entry_new (information metadata : json) : outcome Entry :=
  match entry_error information metadata with
  | Some e => Raise e
  | None => Ok {| content := information; metadata := metadata |}
  end.

(** [models.Filter] applied to the keyword arguments [query_filter] *)
Definition Filter_new (query_filter : json) : outcome Filter :=
  match filter_error query_filter with
  | Some e => Raise e
  | None => Ok {| filter_kwargs := query_filter |}
  end.

(** [await mcp.qdrant_connector.store(entry, collection_name=collection)] *)
Definition connector_store (entry : Entry) (collection : json) : M unit :=
  fun log =>
    let log' := (log ++ [CallStore entry collection])%list in
    match store_reply log entry collection with
    | Some e => (Raise e, log')
    | None => (Ok tt, log')
    end.

(** [await mcp.qdrant_connector.search(query, collection_name=...,
    limit=..., query_filter=...)] *)
Definition connector_search (query collection : json) (limit : Z)
           (filter_obj : option Filter) : M (list Entry) :=
  fun log =>
    (search_reply log query collection limit filter_obj,
     (log ++ [CallSearch query collection limit filter_obj])%list).

(** [collection_name or mcp.qdrant_settings.collection_name] *)
Definition effective_collection (collection_name : json) : json :=
  Py.or collection_name
        match settings_collection_name with
        | Some s => JStr s
        | None => JNull
        end.

(** The f-string appended for one search result. *)
Definition render_entry (entry : Entry) : string :=
  let entry_meta := Py.or (metadata entry) (JObj []) in
  "<entry><content>" ++ py_str (content entry)
    ++ "</content><metadata>" ++ py_str entry_meta ++ "</metadata></entry>".

(** ** ToolInvoker: [_call_tool_direct] *)
Definition _call_tool_direct (name : string) (arguments : json)
  : M (list string) :=
  if String.eqb name "qdrant-store" then
    information <- lift (py_get arguments "information") ;;
    if negb (Py.truthy information) then
      raise (ValueError "information is required")
    else
      metadata <- lift (py_get arguments "metadata") ;;
      collection_name <- lift (py_get arguments "collection_name") ;;
      let collection := effective_collection collection_name in
      if negb (Py.truthy collection) then
        raise (ValueError "collection_name is required when no default is set")
      else
        entry <- lift (Entry_new information metadata) ;;
        _ <- connector_store entry collection ;;
        ret ["Remembered: " ++ py_str information
             ++ " in collection " ++ py_str collection]
  else if String.eqb name "qdrant-find" then
    query <- lift (py_get arguments "query") ;;
    if negb (Py.truthy query) then
      raise (ValueError "query is required")
    else
      collection_name <- lift (py_get arguments "collection_name") ;;
      let collection := effective_collection collection_name in
      if negb (Py.truthy collection) then
        raise (ValueError "collection_name is required when no default is set")
      else
        query_filter <- lift (py_get arguments "query_filter") ;;
        filter_obj <-
          (if Py.truthy query_filter
           then f <- lift (Filter_new query_filter) ;; ret (Some f)
           else ret None) ;;
        entries <- connector_search query collection settings_search_limit
                                    filter_obj ;;
        match entries with
        | [] => ret ["No matching entries."]
        | _ =>
            let content := ["Results for the query '" ++ py_str query ++ "'"] in
            ret (fold_left
                   (fun content entry => (content ++ [render_entry entry])%list)
                   entries content)
        end
  else raise (ValueError ("Unknown tool: " ++ name)).

(** ** JsonRpcDispatcher *)

(** A [JSONResponse]: its status code and the value it serializes. *)
Record JSONResponse : Type := {
  status_code : Z;
  body : json
}.

(** [JSONResponse(content, status_code=...)]: the constructor renders the
    body at once with [json.dumps(content, allow_nan=False, ...)], which
    raises a [ValueError] on a float that JSON cannot carry (newer
    interpreters append the float to the message). *)
Definition JSONResponse_new (content : json) (status : Z)
  : outcome JSONResponse :=
  if json_compliant content
  then Ok {| status_code := status; body := content |}
  else Raise (ValueError "Out of range float values are not JSON compliant").

Definition _jsonrpc_result (id_value result : json) : outcome JSONResponse :=
  JSONResponse_new
    (JObj [("jsonrpc", JStr "2.0"); ("id", id_value); ("result", result)])
    200.

Definition _jsonrpc_error (id_value : json) (code : Z) (message : string)
  : outcome JSONResponse :=
  JSONResponse_new
    (JObj [("jsonrpc", JStr "2.0"); ("id", id_value);
           ("error", JObj [("code", JInt code); ("message", JStr message)])])
    200.

Definition _tool_payload : M json :=
  tools <- lift get_tools ;;
  ret (JArr (map (fun '(_, tool) => tool_dump tool) tools)).

(** [_handle_jsonrpc(request)].  [request_json] is [None] when
    [await request.json()] raises and the decoded body otherwise. *)
Definition _handle_jsonrpc (request_json : option json) : M JSONResponse :=
  match request_json with
  | None =>
      lift (JSONResponse_new
              (JObj [("error", JStr "Invalid JSON-RPC payload")]) 400)
  | Some payload =>
      method <- lift (py_get payload "method") ;;
      id_value <- lift (py_get payload "id") ;;
      if Py.eq_str method "initialize" then
        lift (_jsonrpc_result id_value
               (JObj [("protocolVersion", JStr "0.1");
                      ("serverInfo", JObj [("name", JStr mcp_name);
                                           ("version", JStr "0.1.0")]);
                      ("capabilities",
                       JObj [("tools", JObj [("listChanged", JBool true)])])]))
      else if Py.eq_str method "tools/list" then
        tools <- _tool_payload ;;
        lift (_jsonrpc_result id_value (JObj [("tools", tools)]))
      else if Py.eq_str method "tools/list_changed" then
        lift (_jsonrpc_result id_value (JObj []))
      else if Py.eq_str method "tools/call" then
        p <- lift (py_get payload "params") ;;
        let params := Py.or p (JObj []) in
        raw_name <- lift (py_get params "name") ;;
        name <- lift (_resolve_tool_name raw_name) ;;
        a <- lift (py_get params "arguments") ;;
        let arguments := Py.or a (JObj []) in
        r <- attempt (_call_tool_direct name arguments) ;;
        match r with
        | inr exc => lift (_jsonrpc_error id_value (-32000) (exn_str exc))
        | inl result_blocks =>
            lift (_jsonrpc_result id_value
                    (JObj [("content",
                            JArr (_serialize_content
                                    (map str_object result_blocks)))]))
        end
      else if Py.eq_str method "ping" then
        lift (_jsonrpc_result id_value (JObj [("status", JStr "ok")]))
      else
        lift (_jsonrpc_error id_value (-32601)
               ("Method not implemented: " ++ py_str method))
  end.

End Bridge.

(** ** RequestRouter *)

(** The ASGI connection scope: the entries the router reads.  Header names
    are lower-case, as ASGI delivers them. *)
Record Scope : Type := {
  scope_type : string;
  scope_method : string;
  scope_path : option string;
  scope_headers : list (string * string)
}.

(** [headers.get(key, default)] of starlette's [Headers]: the value of the
    first header named [key]. *)
Fixpoint headers_get (headers : list (string * string)) (key default : string)
  : string :=
  match headers with
  | [] => default
  | (k, v) :: rest =>
      if String.eqb k key then v else headers_get rest key default
  end.

Definition _should_use_jsonrpc (scope : Scope)
           (headers : list (string * string)) : bool :=
  if negb (String.eqb (scope_method scope) "POST") then false
  else
    let accept := headers_get headers "accept" "" in
    if PyStr.contains "application/json-seq" accept
       || PyStr.contains "text/event-stream" accept
    then false
    else
      let content_type := headers_get headers "content-type" "" in
      PyStr.contains "application/json" (PyStr.lower content_type).

(** Which application [HybridMCPApp.__call__] awaits. *)
Inductive handler : Type :=
| JsonRpcShim   (* [_handle_jsonrpc] *)
| StreamApp.    (* [self.stream_app] *)

Definition HybridMCPApp_call (scope : Scope) : handler :=
  if negb (String.eqb (scope_type scope) "http") then StreamApp
  else
    let headers := scope_headers scope in
    let path := match scope_path scope with Some p => p | None => "" end in
    if PyStr.startswith path "/mcp" && _should_use_jsonrpc scope headers
    then JsonRpcShim
    else StreamApp.

(** ** OpenAIEmbeddingProvider.embed_documents *)

(** One item of [response.data]; [item_index] is [None] when the item has no
    [index] attribute. *)
Record EmbeddingItem (V : Type) : Type := {
  item_index : option Z;
  embedding : list V
}.

Arguments item_index {V} _.
Arguments embedding {V} _.

(** [getattr(item, "index", 0)] *)
Definition index_key {V} (item : EmbeddingItem V) : Z :=
  match item_index item with
  | Some i => i
  | None => 0%Z
  end.

(** [sorted(l, key=key)]: Python's sort is stable, so an element goes in
    front of the first later element whose key is not smaller. *)
Fixpoint insert_by {A} (key : A -> Z) (x : A) (l : list A) : list A :=
  match l with
  | [] => [x]
  | y :: l' =>
      if (key x <=? key y)%Z then x :: y :: l' else y :: insert_by key x l'
  end.

Fixpoint sorted {A} (key : A -> Z) (l : list A) : list A :=
  match l with
  | [] => []
  | x :: l' => insert_by key x (sorted key l')
  end.

(** The body of [embed_documents] after the awaited request:
    [response_data] is [response.data]. *)
Definition embed_documents {V} (response_data : list (EmbeddingItem V))
  : list (list V) :=
  let sorted_data := sorted index_key response_data in
  map (fun item => embedding item) sorted_data.

(** ** OpenAIEmbeddingProvider: the vector name and single queries *)

(** [s.replace(old, new)] for one-character [old] and [new] *)
Fixpoint replace_char (old new : ascii) (s : string) : string :=
  match s with
  | EmptyString => EmptyString
  | String c s' =>
      String (if Ascii.eqb c old then new else c) (replace_char old new s')
  end.

(** The name computed at the end of [__init__]; model names are taken
    within Latin-1, where [lower] is the one of [PyStr]. *)
Definition vector_name_of (model_name : string) : string :=
  let safe_model_name :=
    replace_char " " "-" (replace_char ":" "-" (replace_char "/" "-" model_name))
  in
  PyStr.lower ("openai-" ++ safe_model_name).

(** [l[0]] on an empty list *)
Definition index_error {A} : outcome A :=
  Raise (OtherError "IndexError" "list index out of range").

(** The body of [embed_query] after the awaited request. *)
Definition embed_query {V} (response_data : list (EmbeddingItem V))
  : outcome (list V) :=
  match response_data with
  | [] => index_error
  | first :: _ => Ok (embedding first)
  end.

(** ** Reference definitions, written from the specification *)

Module Spec.

(** [sub] occurs in [s]. *)
Definition Substring (sub s : string) : Prop :=
  exists before after, s = before ++ sub ++ after.

(** Position of the first occurrence of the character [c]. *)
Fixpoint first_index (c : ascii) (s : string) : option nat :=
  match s with
  | EmptyString => None
  | String a s' =>
      if Ascii.eqb a c then Some O else option_map S (first_index c s')
  end.

Definition alias_set : list string :=
  ["qdrant"; "qdrant-rag"; "qdrant-rag-mcp"].

Definition literal_prefix : string := "qdrant_".

(** The resolution algorithm of the specification: split on the first
    separator, drop a known namespace, else strip the literal prefix, else
    keep the raw name. *)
Definition resolve (raw : string) : string :=
  match first_index "."%char raw with
  | Some i =>
      let namespace := substring 0 i raw in
      let rest := substring (S i) (String.length raw - S i) raw in
      if in_dec string_dec namespace alias_set then rest else raw
  | None =>
      if prefix literal_prefix raw
      then substring (String.length literal_prefix)
                     (String.length raw - String.length literal_prefix) raw
      else raw
  end.

(** A canonical name: non-empty, with no alias namespace in front of its
    first separator and, when it has no separator, without the literal
    prefix. *)
Definition canonical (name : string) : bool :=
  negb (String.eqb name "") &&
  match first_index "."%char name with
  | Some i =>
      if in_dec string_dec (substring 0 i name) alias_set then false else true
  | None => negb (prefix literal_prefix name)
  end.

(** A text block on the wire. *)
Definition text_block (s : string) : json :=
  JObj [("type", JStr "text"); ("text", JStr s)].

(** The two response envelopes of the protocol. *)
Definition result_envelope (id_value result : json) : json :=
  JObj [("jsonrpc", JStr "2.0"); ("id", id_value); ("result", result)].

Definition error_envelope (id_value : json) (code : Z) (message : string)
  : json :=
  JObj [("jsonrpc", JStr "2.0"); ("id", id_value);
        ("error", JObj [("code", JInt code); ("message", JStr message)])].

(** A float that a JSON text cannot carry. *)
Definition non_finite (f : spec_float) : Prop :=
  f = S754_nan \/ exists sign, f = S754_infinity sign.

(** [v] holds no such float, at any depth. *)
Inductive Renderable : json -> Prop :=
| RenderNull : Renderable JNull
| RenderBool b : Renderable (JBool b)
| RenderInt z : Renderable (JInt z)
| RenderFloat f : ~ non_finite f -> Renderable (JFloat f)
| RenderStr s : Renderable (JStr s)
| RenderArr items :
    (forall x, In x items -> Renderable x) -> Renderable (JArr items)
| RenderObj fields :
    (forall k x, In (k, x) fields -> Renderable x) -> Renderable (JObj fields).

(** The value of the header named [key]: that of the first header of that
    name, and the empty string when there is none. *)
Definition header_value (headers : list (string * string)) (key value : string)
  : Prop :=
  (exists before after,
      headers = (before ++ (key, value) :: after)%list /\
      forall v, ~ In (key, v) before) \/
  ((forall v, ~ In (key, v) headers) /\ value = "").

(** ASCII case folding: A-Z to a-z, every other character as it is. *)
Definition fold_char (c : ascii) : ascii :=
  let n := nat_of_ascii c in
  if ((65 <=? n) && (n <=? 90))%nat then ascii_of_nat (n + 32) else c.

Fixpoint fold_case (s : string) : string :=
  match s with
  | EmptyString => EmptyString
  | String c s' => String (fold_char c) (fold_case s')
  end.

(** [pattern] occurs in [s] in some letter casing. *)
Definition SubstringAnyCase (pattern s : string) : Prop :=
  exists u, Substring u s /\ fold_case u = fold_case pattern.

End Spec.


(** Strictly increasing keys. *)
Definition key_lt {A} (key : A -> Z) (a b : A) : Prop := (key a < key b)%Z.

(** The characters of a string. *)
Definition chars (s : string) : list ascii := list_ascii_of_string s.

(** A capital letter A-Z. *)
Definition is_ascii_upper (c : ascii) : Prop :=
  (65 <= nat_of_ascii c <= 90)%nat.

(** A pattern of ASCII characters. *)
Definition ascii_only (pattern : string) : Prop :=
  forall c, In c (list_ascii_of_string pattern) -> (nat_of_ascii c < 128)%nat.

(** Non-decreasing keys. *)
Definition key_le {A} (key : A -> Z) (a b : A) : Prop := (key a <= key b)%Z.

(** The five method names the dispatcher knows. *)
Definition known_methods : list string :=
  ["initialize"; "tools/list"; "tools/list_changed"; "tools/call"; "ping"].

(** ** Concrete values used in the examples *)

(** The mixed list of the specification: a structured item, the mapping
    [{"a": 1}] and a plain string. *)
Definition mixed_items : list PyObject :=
  [ {| model_dump := Some (JObj [("type", JStr "image"); ("data", JStr "aGk=")]);
       as_dict := None;
       to_str := "type='image' data='aGk='" |};
    {| model_dump := None;
       as_dict := Some [("a", JInt 1)];
       to_str := "{'a': 1}" |};
    str_object "plain text" ].

(** The entries stored by the calls of a log, oldest first. *)
Definition stored_entries (log : list call) : list Entry :=
  flat_map (fun c => match c with
                     | CallStore entry _ => [entry]
                     | CallSearch _ _ _ _ => []
                     end) log.

(** A server that keeps its entries in memory: [store] always succeeds and
    [search] returns the entries stored so far, up to the limit.  The
    renderer covers the values the examples print. *)
Definition memory_server : Server :=
  {| mcp_name := "mcp-server-qdrant";
     settings_collection_name := Some "notes";
     settings_search_limit := 10;
     Tool := string;
     get_tools := Ok [("qdrant-store", "Keep some information for later");
                      ("qdrant-find", "Look up stored information")];
     tool_dump := fun description => JObj [("description", JStr description)];
     entry_error := fun information metadata =>
       match information, metadata with
       | JStr _, JNull | JStr _, JObj _ => None
       | _, _ => Some (OtherError "ValidationError" "invalid Entry")
       end;
     filter_error := fun query_filter =>
       match query_filter with
       | JObj _ => None
       | _ => Some (TypeError "argument after ** must be a mapping")
       end;
     store_reply := fun _ _ _ => None;
     search_reply := fun log _ _ limit _ =>
       Ok (firstn (Z.to_nat limit) (stored_entries log));
     py_repr := fun v =>
       match v with
       | JNull => "None"
       | JBool true => "True"
       | JBool false => "False"
       | JObj [] => "{}"
       | JArr [] => "[]"
       | _ => "<object>"
       end |}.

(** The same server with no default collection configured. *)
Definition server_without_default : Server :=
  {| mcp_name := mcp_name (Server := memory_server);
     settings_collection_name := None;
     settings_search_limit := settings_search_limit (Server := memory_server);
     Tool := Tool (Server := memory_server);
     get_tools := get_tools (Server := memory_server);
     tool_dump := tool_dump (Server := memory_server);
     entry_error := entry_error (Server := memory_server);
     filter_error := filter_error (Server := memory_server);
     store_reply := store_reply (Server := memory_server);
     search_reply := search_reply (Server := memory_server);
     py_repr := py_repr (Server := memory_server) |}.

(** A server whose vector store is unreachable and whose tool registry
    fails: both raise on every request. *)
Definition unreachable_server : Server :=
  {| mcp_name := mcp_name (Server := memory_server);
     settings_collection_name := Some "notes";
     settings_search_limit := settings_search_limit (Server := memory_server);
     Tool := Tool (Server := memory_server);
     get_tools := Raise (OtherError "RuntimeError" "registry closed");
     tool_dump := tool_dump (Server := memory_server);
     entry_error := entry_error (Server := memory_server);
     filter_error := filter_error (Server := memory_server);
     store_reply := fun _ _ _ =>
       Some (OtherError "ConnectionError" "connection refused");
     search_reply := fun _ _ _ _ _ =>
       Raise (OtherError "ConnectionError" "connection refused");
     py_repr := py_repr (Server := memory_server) |}.

(** A request body with the given id, method and params. *)
Definition request_body (id_value : json) (method : string) (params : json)
  : list (string * json) :=
  [("jsonrpc", JStr "2.0"); ("id", id_value); ("method", JStr method);
   ("params", params)].

(** One entry and the log of the call that stored it. *)
Definition note_entry : Entry :=
  {| content := JStr "buy milk"; metadata := JNull |}.

Definition log_with_note : list call := [CallStore note_entry (JStr "notes")].

(** Request bodies. *)
Definition call_request (name : json) (arguments : list (string * json))
  : json :=
  JObj [("jsonrpc", JStr "2.0"); ("id", JInt 7); ("method", JStr "tools/call");
        ("params", JObj [("name", name); ("arguments", JObj arguments)])].

Definition call_without_name : json :=
  JObj [("jsonrpc", JStr "2.0"); ("id", JInt 7); ("method", JStr "tools/call");
        ("params", JObj [("arguments", JObj [("query", JStr "x")])])].

(** Router inputs: a POST to the mount path with the given headers. *)
Definition post_mcp (accept content_type : string) : Scope :=
  {| scope_type := "http";
     scope_method := "POST";
     scope_path := Some "/mcp";
     scope_headers := [("host", "localhost"); ("accept", accept);
                       ("content-type", content_type)] |}.

(** The [accept] and [content-type] values the router reads, and the path. *)
Definition accept_of (scope : Scope) : string :=
  headers_get (scope_headers scope) "accept" "".

Definition content_type_of (scope : Scope) : string :=
  headers_get (scope_headers scope) "content-type" "".

Definition path_of (scope : Scope) : string :=
  match scope_path scope with
  | Some p => p
  | None => ""
  end.

(** Embedding items: two without usable order (one has no [index], the
    other has index [0]), and a response tagged with the positions
    [i, i+1, ...] of its vectors. *)
Definition untagged_item : EmbeddingItem Z :=
  {| item_index := None; embedding := [1; 2]%Z |}.

Definition zero_item : EmbeddingItem Z :=
  {| item_index := Some 0%Z; embedding := [3; 4]%Z |}.

Fixpoint tagged_from {V} (i : Z) (vectors : list (list V))
  : list (EmbeddingItem V) :=
  match vectors with
  | [] => []
  | v :: rest =>
      {| item_index := Some i; embedding := v |} :: tagged_from (i + 1) rest
  end.

(** * Properties *)

(** ** Strings *)

Lemma startswith_prefix (p s : string) :
  PyStr.startswith s p = prefix p s.
Proof.
  revert s; induction p as [|a p IH]; intros [|b s]; simpl; trivial.
  destruct (ascii_dec a b) as [->|Hne].
  - now rewrite Ascii.eqb_refl, IH.
  - apply Ascii.eqb_neq in Hne. now rewrite Hne.
Qed.

Lemma startswith_nil (s : string) : PyStr.startswith s "" = true.
Proof. now destruct s. Qed.

Lemma startswith_app (p s : string) :
  PyStr.startswith s p = true <-> exists t, s = p ++ t.
Proof.
  revert s; induction p as [|a p IH]; intros s; simpl.
  - split; [exists s; reflexivity | destruct s; reflexivity].
  - destruct s as [|b s]; simpl.
    + split; [discriminate | intros [t Ht]; discriminate].
    + rewrite andb_true_iff, Ascii.eqb_eq, IH. split.
      * intros [-> [t ->]]. now exists t.
      * intros [t Ht]. injection Ht as -> ->. split; [reflexivity | now exists t].
Qed.

Lemma contains_substring (sub s : string) :
  PyStr.contains sub s = true <-> Spec.Substring sub s.
Proof.
  unfold Spec.Substring. induction s as [|c s IH].
  - change (PyStr.contains sub "") with (PyStr.startswith "" sub || false).
    rewrite orb_false_r, startswith_app. split.
    + intros [t Ht]. exists "", t. exact Ht.
    + intros [[|a b] [t Ht]]; simpl in Ht; [now exists t | discriminate].
  - change (PyStr.contains sub (String c s))
      with (PyStr.startswith (String c s) sub || PyStr.contains sub s).
    rewrite orb_true_iff, startswith_app, IH. split.
    + intros [[t Ht] | [a [b Hab]]].
      * exists "", t. exact Ht.
      * exists (String c a), b. simpl. now rewrite Hab.
    + intros [[|c' a] [b Hab]]; simpl in Hab.
      * left. now exists b.
      * right. injection Hab as -> ->. now exists a, b.
Qed.

Lemma contains_false_iff (sub s : string) :
  PyStr.contains sub s = false <-> ~ Spec.Substring sub s.
Proof.
  rewrite <- contains_substring. destruct (PyStr.contains sub s); intuition congruence.
Qed.

Lemma substring_full (s : string) : substring 0 (String.length s) s = s.
Proof. induction s; simpl; congruence. Qed.

Lemma slice_from_substring (n : nat) (s : string) :
  PyStr.slice_from n s = substring n (String.length s - n) s.
Proof.
  revert s; induction n as [|n IH]; intros s.
  - simpl. now rewrite Nat.sub_0_r, substring_full.
  - destruct s as [|c s]; simpl; [reflexivity | apply IH].
Qed.

Lemma slice_from_length (n : nat) (s : string) :
  String.length (PyStr.slice_from n s) = String.length s - n.
Proof.
  revert s; induction n as [|n IH]; intros [|c s]; simpl; auto.
Qed.

(** [split(".", 1)] and the membership test agree with the position of the
    first separator. *)
Lemma split1_first_index (c : ascii) (s : string) :
  match Spec.first_index c s with
  | None =>
      PyStr.contains (String c "") s = false /\ PyStr.split1 c s = [s]
  | Some i =>
      PyStr.contains (String c "") s = true /\
      PyStr.split1 c s =
        [substring 0 i s; substring (S i) (String.length s - S i) s]
  end.
Proof.
  induction s as [|a s IH].
  - simpl. split; reflexivity.
  - change (PyStr.contains (String c "") (String a s))
      with (PyStr.startswith (String a s) (String c "")
            || PyStr.contains (String c "") s).
    change (PyStr.startswith (String a s) (String c ""))
      with (Ascii.eqb c a && PyStr.startswith s "").
    rewrite startswith_nil, andb_true_r.
    simpl Spec.first_index. simpl PyStr.split1.
    rewrite (Ascii.eqb_sym c a).
    destruct (Ascii.eqb a c) eqn:E.
    + simpl. split; [reflexivity|].
      now rewrite Nat.sub_0_r, substring_full.
    + destruct (Spec.first_index c s) as [i|]; simpl;
        destruct IH as [-> ->]; split; reflexivity.
Qed.

Lemma in_known_namespaces_dec (ns : string) :
  in_known_namespaces ns =
  if in_dec string_dec ns Spec.alias_set then true else false.
Proof.
  unfold in_known_namespaces, known_namespaces, Spec.alias_set.
  destruct (in_dec string_dec ns _) as [Hin|Hni].
  - apply existsb_exists. exists ns. split; [exact Hin | apply String.eqb_refl].
  - destruct (existsb _ _) eqn:E; [|reflexivity].
    apply existsb_exists in E as [x [Hx Heq]].
    apply String.eqb_eq in Heq. subst x. contradiction.
Qed.

(** On strings the resolver never raises and computes [Spec.resolve]. *)
Lemma resolve_str_spec (raw : string) :
  resolve_str raw = Ok (Spec.resolve raw).
Proof.
  unfold resolve_str, Spec.resolve, dot.
  pose proof (split1_first_index "."%char raw) as H.
  destruct (Spec.first_index "."%char raw) as [i|]; destruct H as [-> H].
  - rewrite H, in_known_namespaces_dec.
    now destruct (in_dec string_dec _ _).
  - rewrite startswith_prefix. unfold Spec.literal_prefix.
    destruct (prefix "qdrant_" raw); [|reflexivity].
    now rewrite slice_from_substring.
Qed.

Lemma resolve_nonempty (raw : string) :
  raw <> "" -> _resolve_tool_name (JStr raw) = resolve_str raw.
Proof.
  intros H. unfold _resolve_tool_name. simpl.
  destruct (String.eqb raw "") eqn:E; [|reflexivity].
  apply String.eqb_eq in E. contradiction.
Qed.

Lemma first_index_none (c : ascii) (s : string) :
  Spec.first_index c s = None <-> ~ Spec.Substring (String c "") s.
Proof.
  rewrite <- contains_false_iff.
  pose proof (split1_first_index c s) as H.
  destruct (Spec.first_index c s); destruct H as [H _]; rewrite H;
    split; congruence.
Qed.

Lemma substring_tail_neq (n : nat) (s : string) :
  s <> "" -> substring (S n) (String.length s - S n) s <> s.
Proof.
  intros Hs Heq. apply (f_equal String.length) in Heq.
  rewrite <- slice_from_substring, slice_from_length in Heq.
  destruct s as [|c s]; [congruence | simpl in Heq; lia].
Qed.

Lemma split1_app (c : ascii) (ns rest : string) :
  ~ Spec.Substring (String c "") ns ->
  PyStr.split1 c (ns ++ String c rest) = [ns; rest].
Proof.
  induction ns as [|a ns IH]; intros Hno; simpl.
  - now rewrite Ascii.eqb_refl.
  - destruct (Ascii.eqb a c) eqn:E.
    + apply Ascii.eqb_eq in E. subst a.
      exfalso. apply Hno. now exists "", ns.
    + rewrite IH; [reflexivity|].
      intros [u [v Huv]]. apply Hno. exists (String a u), v.
      simpl. now rewrite Huv.
Qed.

(** ** ToolNameResolver *)

(** A name with a separator: the namespace in front of the first one
    decides. *)
Lemma resolve_namespaced (ns rest : string) :
  ~ Spec.Substring "." ns ->
  _resolve_tool_name (JStr (ns ++ "." ++ rest)) =
  Ok (if in_dec string_dec ns Spec.alias_set then rest else ns ++ "." ++ rest).
Proof.
  intros Hno. rewrite resolve_nonempty by (destruct ns; discriminate).
  unfold resolve_str.
  replace (PyStr.contains "." (ns ++ "." ++ rest)) with true
    by (symmetry; apply contains_substring; now exists ns, rest).
  unfold dot. simpl (_ ++ rest). rewrite split1_app by exact Hno.
  rewrite in_known_namespaces_dec. now destruct (in_dec string_dec ns _).
Qed.

(** A name without separator that carries the literal prefix loses it. *)
Lemma resolve_prefixed (t : string) :
  ~ Spec.Substring "." ("qdrant_" ++ t) ->
  _resolve_tool_name (JStr ("qdrant_" ++ t)) = Ok t.
Proof.
  intros Hno. rewrite resolve_nonempty by discriminate.
  unfold resolve_str. apply contains_false_iff in Hno. rewrite Hno.
  replace (PyStr.startswith ("qdrant_" ++ t) "qdrant_") with true
    by (symmetry; apply startswith_app; now exists t).
  reflexivity.
Qed.

(** Any other non-empty name is returned as it is. *)
Lemma resolve_plain (raw : string) :
  raw <> "" -> ~ Spec.Substring "." raw ->
  ~ (exists t, raw = "qdrant_" ++ t) ->
  _resolve_tool_name (JStr raw) = Ok raw.
Proof.
  intros Hne Hno Hpre. rewrite resolve_nonempty by exact Hne.
  unfold resolve_str. apply contains_false_iff in Hno. rewrite Hno.
  destruct (PyStr.startswith raw "qdrant_") eqn:E; [|reflexivity].
  apply startswith_app in E. contradiction.
Qed.

(** C3. For every non-empty raw tool name the resolver returns what the
    algorithm of the specification computes: a name with a ['.'] is cut at
    the first one and yields the rest when the namespace is one of the
    aliases and the raw name otherwise (the prefix rule is not tried there);
    a name without ['.'] that starts with ["qdrant_"] loses that prefix; any
    other name is returned unchanged.  In particular
    ["qdrant.qdrant-store"] resolves to ["qdrant-store"] and
    ["unknown-ns.foo"] to itself. *)
Theorem resolve_tool_name_algorithm :
  (forall raw, raw <> "" ->
     _resolve_tool_name (JStr raw) = Ok (Spec.resolve raw)) /\
  (forall ns rest, ~ Spec.Substring "." ns ->
     _resolve_tool_name (JStr (ns ++ "." ++ rest)) =
     Ok (if in_dec string_dec ns Spec.alias_set
         then rest else ns ++ "." ++ rest)) /\
  (forall t, ~ Spec.Substring "." ("qdrant_" ++ t) ->
     _resolve_tool_name (JStr ("qdrant_" ++ t)) = Ok t) /\
  (forall raw, raw <> "" -> ~ Spec.Substring "." raw ->
     ~ (exists t, raw = "qdrant_" ++ t) ->
     _resolve_tool_name (JStr raw) = Ok raw) /\
  _resolve_tool_name (JStr "qdrant.qdrant-store") = Ok "qdrant-store" /\
  _resolve_tool_name (JStr "unknown-ns.foo") = Ok "unknown-ns.foo".
Proof.
  split; [|split; [|split; [|split; [|split]]]].
  - intros raw Hne. rewrite resolve_nonempty by exact Hne.
    apply resolve_str_spec.
  - exact resolve_namespaced.
  - exact resolve_prefixed.
  - exact resolve_plain.
  - reflexivity.
  - reflexivity.
Qed.

Lemma no_dot_in_qdrant_find : ~ Spec.Substring "." "qdrant_find".
Proof. apply contains_false_iff. reflexivity. Qed.

Lemma resolve_tool_name_algorithm_witness :
  "qdrant_find" <> "" /\
  _resolve_tool_name (JStr "qdrant_find") = Ok (Spec.resolve "qdrant_find") /\
  _resolve_tool_name (JStr ("qdrant_" ++ "find")) = Ok "find" /\
  _resolve_tool_name (JStr ("qdrant-rag" ++ "." ++ "qdrant-find")) =
    Ok "qdrant-find".
Proof.
  split; [discriminate|].
  destruct resolve_tool_name_algorithm as [Hspec [Hns [Hpre _]]].
  split; [apply Hspec; discriminate|].
  split; [apply Hpre; exact no_dot_in_qdrant_find|].
  rewrite Hns; [reflexivity|].
  apply contains_false_iff. reflexivity.
Defined.

(** Resolution strips one layer only: the result of resolving
    ["qdrant.qdrant.foo"] is ["qdrant.foo"], which resolves further to
    ["foo"]. *)
Lemma resolve_twice_differs :
  _resolve_tool_name (JStr "qdrant.qdrant.foo") = Ok "qdrant.foo" /\
  _resolve_tool_name (JStr "qdrant.foo") = Ok "foo" /\
  _resolve_tool_name (JStr "qdrant.foo") <> Ok "qdrant.foo".
Proof.
  split; [reflexivity|]. split; [reflexivity|].
  change (_resolve_tool_name (JStr "qdrant.foo")) with (@Ok string "foo").
  discriminate.
Qed.

Lemma resolve_fixpoint_iff_canonical (y : string) :
  _resolve_tool_name (JStr y) = Ok y <-> Spec.canonical y = true.
Proof.
  unfold Spec.canonical. destruct (String.eqb y "") eqn:Ey.
  - apply String.eqb_eq in Ey. subst y. simpl. split; discriminate.
  - apply String.eqb_neq in Ey. rewrite resolve_nonempty by exact Ey.
    rewrite resolve_str_spec. unfold Spec.resolve. simpl negb.
    rewrite andb_true_l.
    destruct (Spec.first_index "."%char y) as [i|].
    + destruct (in_dec string_dec _ _); split; try reflexivity; try discriminate.
      intros H. injection H as H. now apply substring_tail_neq in H.
    + unfold Spec.literal_prefix.
      destruct (prefix "qdrant_" y); simpl; split;
        try reflexivity; try discriminate.
      intros H. injection H as H. now apply substring_tail_neq in H.
Qed.

(** C2, as amended. For every non-empty raw name [x] with result [y],
    resolving [y] again returns [y] exactly when [y] is canonical: non-empty,
    with no alias namespace in front of its first ['.'] and, when it has no
    ['.'], without the ["qdrant_"] prefix.  Resolving a canonical name
    returns it unchanged. *)
Theorem resolve_idempotent_on_canonical (x y : string) :
  x <> "" ->
  _resolve_tool_name (JStr x) = Ok y ->
  (_resolve_tool_name (JStr y) = Ok y <-> Spec.canonical y = true).
Proof. intros _ _. apply resolve_fixpoint_iff_canonical. Qed.

Lemma resolve_idempotent_on_canonical_witness :
  _resolve_tool_name (JStr "qdrant-find") = Ok "qdrant-find" <->
  Spec.canonical "qdrant-find" = true.
Proof.
  apply (resolve_idempotent_on_canonical "qdrant.qdrant-find" "qdrant-find").
  - discriminate.
  - reflexivity.
Defined.

(** ** ContentNormalizer *)

Lemma fold_left_snoc {A B} (f : A -> B) (l : list A) (acc : list B) :
  fold_left (fun content item => (content ++ [f item])%list) l acc
  = (acc ++ map f l)%list.
Proof.
  revert acc; induction l as [|x l IH]; intros acc; simpl.
  - now rewrite app_nil_r.
  - now rewrite IH, <- app_assoc.
Qed.

Lemma serialize_content_map (items : list PyObject) :
  _serialize_content items = map serialize_item items.
Proof. unfold _serialize_content. now rewrite fold_left_snoc. Qed.

Lemma serialize_str_objects (texts : list string) :
  _serialize_content (map str_object texts) = map Spec.text_block texts.
Proof.
  rewrite serialize_content_map, map_map. reflexivity.
Qed.

(** C5. Content normalization returns one block per input item, at the same
    position: the output is as long as the input, and the block at position
    [i] comes from the item at position [i] by the ordered rule: what
    [model_dump] returns when the item has that capability, else the item
    itself when it is a mapping, else a text block of its string
    conversion. *)
Theorem serialize_content_order_preserving (items : list PyObject) :
  List.length (_serialize_content items) = List.length items /\
  forall i : nat,
    match nth_error items i with
    | None => nth_error (_serialize_content items) i = None
    | Some item =>
        exists block,
          nth_error (_serialize_content items) i = Some block /\
          (forall dumped, model_dump item = Some dumped -> block = dumped) /\
          (forall kv, model_dump item = None -> as_dict item = Some kv ->
                      block = JObj kv) /\
          (model_dump item = None -> as_dict item = None ->
           block = Spec.text_block (to_str item))
    end.
Proof.
  rewrite serialize_content_map. split; [apply length_map|].
  intros i. rewrite nth_error_map.
  destruct (nth_error items i) as [item|]; simpl; [|reflexivity].
  exists (serialize_item item). split; [reflexivity|].
  unfold serialize_item.
  destruct (model_dump item) as [d|]; [|destruct (as_dict item) as [kv|]].
  - repeat split; intros; congruence.
  - repeat split; intros; congruence.
  - repeat split; intros; try congruence; reflexivity.
Qed.

Lemma serialize_content_order_preserving_witness :
  List.length (_serialize_content mixed_items) = 3%nat /\
  _serialize_content mixed_items =
    [ JObj [("type", JStr "image"); ("data", JStr "aGk=")];
      JObj [("a", JInt 1)];
      Spec.text_block "plain text" ].
Proof.
  split.
  - exact (proj1 (serialize_content_order_preserving mixed_items)).
  - reflexivity.
Defined.

(** ** ToolInvoker *)

Section Invoker.

Context {srv : Server}.


End Invoker.



(** ** JsonRpcDispatcher *)

(** Induction on a decoded value that reaches the elements of arrays and
    the values of objects. *)
Lemma json_deep_ind (P : json -> Prop) :
  P JNull ->
  (forall b, P (JBool b)) ->
  (forall z, P (JInt z)) ->
  (forall f, P (JFloat f)) ->
  (forall s, P (JStr s)) ->
  (forall items, (forall x, In x items -> P x) -> P (JArr items)) ->
  (forall fields, (forall k x, In (k, x) fields -> P x) -> P (JObj fields)) ->
  forall v, P v.
Proof.
  intros Hnull Hbool Hint Hfloat Hstr Harr Hobj.
  fix IH 1. intros [| b | z | f | s | items | fields].
  - exact Hnull.
  - apply Hbool.
  - apply Hint.
  - apply Hfloat.
  - apply Hstr.
  - apply Harr. induction items as [|a items IHitems].
    + intros x [].
    + intros x [<-|Hin]; [apply IH | now apply IHitems].
  - apply Hobj. induction fields as [|[k' a] fields IHfields].
    + intros k x [].
    + intros k x [Heq|Hin];
        [injection Heq as _ <-; apply IH | now apply (IHfields k)].
Qed.

(** The rendering test agrees with the specification's reading of it. *)
Lemma json_compliant_iff (v : json) :
  json_compliant v = true <-> Spec.Renderable v.
Proof.
  induction v as [| b | z | f | s | items IH | fields IH] using json_deep_ind.
  - split; [constructor | reflexivity].
  - split; [constructor | reflexivity].
  - split; [constructor | reflexivity].
  - split.
    + intros H. constructor. intros [-> | [sign ->]]; discriminate.
    + intros H. inversion H as [| | | f' Hf | | |]; subst.
      destruct f; try reflexivity; exfalso; apply Hf.
      * right. now eexists.
      * now left.
  - split; [constructor | reflexivity].
  - simpl. rewrite forallb_forall. split.
    + intros H. constructor. intros x Hx. apply IH; auto.
    + intros H x Hx. inversion H as [| | | | | items' Hall |]; subst.
      apply IH; auto.
  - simpl. rewrite forallb_forall. split.
    + intros H. constructor. intros k x Hx. apply (IH k x Hx).
      exact (H (k, x) Hx).
    + intros H [k x] Hx. inversion H as [| | | | | | fields' Hall]; subst.
      apply (IH k x Hx). exact (Hall k x Hx).
Qed.


Lemma text_blocks_compliant (texts : list string) :
  json_compliant (JObj [("content", JArr (map Spec.text_block texts))]) = true.
Proof.
  simpl. rewrite andb_true_r. induction texts as [|t texts IH]; simpl; auto.
Qed.

(** What the two envelope builders return. *)
Lemma jsonrpc_error_outcome (id_value : json) (code : Z) (message : string) :
  _jsonrpc_error id_value code message =
    if json_compliant id_value
    then Ok {| status_code := 200;
               body := Spec.error_envelope id_value code message |}
    else Raise (ValueError "Out of range float values are not JSON compliant").
Proof.
  unfold _jsonrpc_error, JSONResponse_new, Spec.error_envelope.
  cbn [json_compliant forallb]. rewrite !andb_true_r.
  now destruct (json_compliant id_value).
Qed.

Lemma jsonrpc_result_outcome (id_value result : json) :
  _jsonrpc_result id_value result =
    if json_compliant id_value && json_compliant result
    then Ok {| status_code := 200;
               body := Spec.result_envelope id_value result |}
    else Raise (ValueError "Out of range float values are not JSON compliant").
Proof.
  unfold _jsonrpc_result, JSONResponse_new, Spec.result_envelope.
  cbn [json_compliant forallb]. rewrite !andb_true_r.
  now destruct (json_compliant id_value && json_compliant result).
Qed.

Section Dispatcher.

Context {srv : Server}.

(** Once the name has resolved, [tools/call] builds a result from the
    tool's texts as text blocks, or error [-32000] carrying the message of
    whatever the tool raised. *)
Lemma handle_tools_call
      (fields params : list (string * json)) (name : string)
      (log : list call) :
  Py.lookup "method" fields = JStr "tools/call" ->
  Py.or (Py.lookup "params" fields) (JObj []) = JObj params ->
  _resolve_tool_name (Py.lookup "name" params) = Ok name ->
  _handle_jsonrpc (Some (JObj fields)) log =
    let id_value := Py.lookup "id" fields in
    let arguments := Py.or (Py.lookup "arguments" params) (JObj []) in
    match _call_tool_direct name arguments log with
    | (Ok texts, log') =>
        (_jsonrpc_result id_value
           (JObj [("content", JArr (map Spec.text_block texts))]),
         log')
    | (Raise exc, log') =>
        (_jsonrpc_error id_value (-32000) (exn_str exc), log')
    end.
Proof.
  intros Hmethod Hparams Hname.
  unfold _handle_jsonrpc, bind, lift, ret, attempt, py_get.
  rewrite Hmethod.
  change (Py.eq_str (JStr "tools/call") "initialize") with false.
  change (Py.eq_str (JStr "tools/call") "tools/list") with false.
  change (Py.eq_str (JStr "tools/call") "tools/list_changed") with false.
  change (Py.eq_str (JStr "tools/call") "tools/call") with true.
  cbv iota. rewrite Hparams, Hname. cbv zeta.
  destruct (_call_tool_direct name _ log) as [[texts|exc] log'].
  - now rewrite serialize_str_objects.
  - reflexivity.
Qed.

(** C1, where the code departs from it. A [tools/call] whose params carry
    no [name], or an empty one: the resolver raises ["Missing tool name"]
    before the [try] block is entered, so the handler raises and no JSON-RPC
    error [-32000] is produced.  Nothing has been asked of the vector store
    at that point. *)
Theorem tools_call_missing_name_raises
        (fields params : list (string * json)) (log : list call) :
  Py.lookup "method" fields = JStr "tools/call" ->
  Py.or (Py.lookup "params" fields) (JObj []) = JObj params ->
  Py.truthy (Py.lookup "name" params) = false ->
  _handle_jsonrpc (Some (JObj fields)) log =
    (Raise (ValueError "Missing tool name"), log).
Proof.
  intros Hmethod Hparams Hname.
  unfold _handle_jsonrpc, bind, lift, py_get. rewrite Hmethod.
  change (Py.eq_str (JStr "tools/call") "initialize") with false.
  change (Py.eq_str (JStr "tools/call") "tools/list") with false.
  change (Py.eq_str (JStr "tools/call") "tools/list_changed") with false.
  change (Py.eq_str (JStr "tools/call") "tools/call") with true.
  cbv iota. rewrite Hparams. unfold _resolve_tool_name. now rewrite Hname.
Qed.


(** C10. Whenever a [tools/call] is answered with a result, the result is
    [{"content": [...]}] and every element of the content is a text block
    [{"type": "text", "text": ...}]. *)
Theorem tools_call_result_only_text_blocks
        (payload : json) (log log' : list call) (response : JSONResponse) :
  py_get payload "method" = Ok (JStr "tools/call") ->
  _handle_jsonrpc (Some payload) log = (Ok response, log') ->
  forall id_value result,
    body response = Spec.result_envelope id_value result ->
    exists texts,
      result = JObj [("content", JArr (map Spec.text_block texts))].
Proof.
  intros Hmethod Hrun id_value result Hresp.
  destruct payload as [| | | | | |fields]; try discriminate.
  injection Hmethod as Hmethod.
  destruct (Py.or (Py.lookup "params" fields) (JObj [])) as [| | | | | |params] eqn:Hparams;
    try (unfold _handle_jsonrpc, bind, lift, py_get in Hrun;
         rewrite Hmethod in Hrun; simpl in Hrun; rewrite Hparams in Hrun;
         discriminate).
  destruct (_resolve_tool_name (Py.lookup "name" params)) as [name|e] eqn:Hname.
  - rewrite (handle_tools_call fields params name log Hmethod Hparams Hname) in Hrun.
    cbv zeta in Hrun.
    destruct (_call_tool_direct name _ log) as [[texts|exc] log''].
    + rewrite jsonrpc_result_outcome in Hrun.
      destruct (_ && _); [|discriminate].
      injection Hrun as <- _. simpl in Hresp.
      injection Hresp as _ <-. now exists texts.
    + rewrite jsonrpc_error_outcome in Hrun.
      destruct (json_compliant _); [|discriminate].
      injection Hrun as <- _. discriminate.
  - unfold _handle_jsonrpc, bind, lift, py_get in Hrun.
    rewrite Hmethod in Hrun. simpl in Hrun. rewrite Hparams, Hname in Hrun.
    discriminate.
Qed.

End Dispatcher.

Lemma tools_call_missing_name_raises_witness :
  _handle_jsonrpc (srv := memory_server) (Some call_without_name) log_with_note =
    (Raise (ValueError "Missing tool name"), log_with_note).
Proof.
  exact (tools_call_missing_name_raises (srv := memory_server)
           [("jsonrpc", JStr "2.0"); ("id", JInt 7);
            ("method", JStr "tools/call");
            ("params", JObj [("arguments", JObj [("query", JStr "x")])])]
           [("arguments", JObj [("query", JStr "x")])]
           log_with_note eq_refl eq_refl eq_refl).
Defined.



Lemma tools_call_result_only_text_blocks_witness :
  let request :=
    call_request (JStr "qdrant_qdrant-find") [("query", JStr "milk")] in
  let result :=
    JObj [("content",
           JArr [Spec.text_block "Results for the query 'milk'";
                 Spec.text_block
                   "<entry><content>buy milk</content><metadata>{}</metadata></entry>"])] in
  let response :=
    {| status_code := 200;
       body := JObj [("jsonrpc", JStr "2.0"); ("id", JInt 7);
                     ("result", result)] |} in
  let log' :=
    (log_with_note ++ [CallSearch (JStr "milk") (JStr "notes") 10 None])%list in
  _handle_jsonrpc (srv := memory_server) (Some request) log_with_note =
    (Ok response, log') /\
  exists texts, result = JObj [("content", JArr (map Spec.text_block texts))].
Proof.
  intros request result response log'. split; [reflexivity|].
  exact (tools_call_result_only_text_blocks (srv := memory_server)
           request log_with_note log' response
           eq_refl eq_refl (JInt 7) result eq_refl).
Defined.

(** ** RequestRouter *)

Lemma should_use_jsonrpc_iff (scope : Scope) :
  _should_use_jsonrpc scope (scope_headers scope) = true <->
  scope_method scope = "POST" /\
  ~ Spec.Substring "application/json-seq" (accept_of scope) /\
  ~ Spec.Substring "text/event-stream" (accept_of scope) /\
  Spec.Substring "application/json" (PyStr.lower (content_type_of scope)).
Proof.
  unfold _should_use_jsonrpc. fold (accept_of scope) (content_type_of scope).
  rewrite <- !contains_false_iff, <- contains_substring.
  destruct (String.eqb (scope_method scope) "POST") eqn:Em.
  - apply String.eqb_eq in Em. simpl negb. cbv iota.
    destruct (PyStr.contains "application/json-seq" (accept_of scope));
      destruct (PyStr.contains "text/event-stream" (accept_of scope));
      simpl; intuition congruence.
  - apply String.eqb_neq in Em. simpl. intuition congruence.
Qed.

Lemma router_iff (scope : Scope) :
  scope_type scope = "http" ->
  (HybridMCPApp_call scope = JsonRpcShim <->
   (exists rest, path_of scope = "/mcp" ++ rest) /\
   _should_use_jsonrpc scope (scope_headers scope) = true).
Proof.
  intros Htype. unfold HybridMCPApp_call. rewrite Htype.
  change ("http" =? "http") with true. simpl negb. cbv iota.
  fold (path_of scope). rewrite <- startswith_app.
  destruct (PyStr.startswith (path_of scope) "/mcp");
    destruct (_should_use_jsonrpc scope (scope_headers scope));
    simpl; intuition congruence.
Qed.

Lemma headers_get_absent (headers : list (string * string)) (key default : string) :
  (forall v, ~ In (key, v) headers) -> headers_get headers key default = default.
Proof.
  induction headers as [|[k v] rest IH]; intros Habsent; simpl; [reflexivity|].
  destruct (String.eqb k key) eqn:E.
  - apply String.eqb_eq in E. subst k. exfalso. apply (Habsent v). now left.
  - apply IH. intros v' Hin. apply (Habsent v'). now right.
Qed.

(** Looking a header up returns the value of the first header of that
    name. *)
Lemma headers_get_first (headers : list (string * string)) (key value : string) :
  Spec.header_value headers key value ->
  headers_get headers key "" = value.
Proof.
  intros [[before [after [-> Hfirst]]] | [Habsent ->]].
  - induction before as [|[k v] before IH]; simpl.
    + now rewrite String.eqb_refl.
    + destruct (String.eqb k key) eqn:E.
      * apply String.eqb_eq in E. subst k. exfalso. apply (Hfirst v). now left.
      * apply IH. intros v' Hin. apply (Hfirst v'). now right.
  - now apply headers_get_absent.
Qed.

(** Python's [lower] and ASCII case folding differ only on characters
    outside ASCII, and there both stay outside ASCII. *)
Lemma lower_char_fold_char (c : ascii) :
  PyStr.lower_char c = Spec.fold_char c \/
  ((128 <= nat_of_ascii (PyStr.lower_char c))%nat /\
   (128 <= nat_of_ascii (Spec.fold_char c))%nat).
Proof.
  destruct c as [b0 b1 b2 b3 b4 b5 b6 [|]].
  - right. destruct b0, b1, b2, b3, b4, b5, b6; vm_compute;
      split; repeat constructor.
  - left. destruct b0, b1, b2, b3, b4, b5, b6; reflexivity.
Qed.

Lemma startswith_lower_fold (pattern s : string) :
  ascii_only pattern ->
  PyStr.startswith (PyStr.lower s) pattern =
  PyStr.startswith (Spec.fold_case s) pattern.
Proof.
  revert s; induction pattern as [|a pattern IH]; intros s Hascii.
  - now destruct s.
  - destruct s as [|b s]; simpl; [reflexivity|].
    rewrite IH by (intros c Hc; apply Hascii; now right). f_equal.
    destruct (lower_char_fold_char b) as [-> | [Hl Hf]]; [reflexivity|].
    assert (Ha : (nat_of_ascii a < 128)%nat) by (apply Hascii; now left).
    assert (E1 : Ascii.eqb a (PyStr.lower_char b) = false)
      by (apply Ascii.eqb_neq; intros ->; lia).
    assert (E2 : Ascii.eqb a (Spec.fold_char b) = false)
      by (apply Ascii.eqb_neq; intros ->; lia).
    now rewrite E1, E2.
Qed.

Lemma contains_lower_fold (pattern s : string) :
  ascii_only pattern ->
  PyStr.contains pattern (PyStr.lower s) =
  PyStr.contains pattern (Spec.fold_case s).
Proof.
  intros Hascii. induction s as [|b s IH].
  - reflexivity.
  - change (PyStr.contains pattern (PyStr.lower (String b s)))
      with (PyStr.startswith (PyStr.lower (String b s)) pattern
            || PyStr.contains pattern (PyStr.lower s)).
    change (PyStr.contains pattern (Spec.fold_case (String b s)))
      with (PyStr.startswith (Spec.fold_case (String b s)) pattern
            || PyStr.contains pattern (Spec.fold_case s)).
    now rewrite IH, startswith_lower_fold.
Qed.

Lemma fold_case_app (a b : string) :
  Spec.fold_case (a ++ b) = Spec.fold_case a ++ Spec.fold_case b.
Proof. induction a as [|c a IH]; simpl; [reflexivity | now rewrite IH]. Qed.

Lemma fold_case_split (s x y : string) :
  Spec.fold_case s = x ++ y ->
  exists s1 s2, s = s1 ++ s2 /\ Spec.fold_case s1 = x /\ Spec.fold_case s2 = y.
Proof.
  revert s; induction x as [|c x IH]; intros s H.
  - exists "", s. auto.
  - destruct s as [|b s]; [discriminate|]. simpl in H.
    injection H as Hc H. destruct (IH s H) as [s1 [s2 [-> [H1 H2]]]].
    exists (String b s1), s2. simpl. rewrite Hc, H1. auto.
Qed.

Lemma substring_fold_case (pattern s : string) :
  Spec.Substring pattern (Spec.fold_case s) <->
  exists u, Spec.Substring u s /\ Spec.fold_case u = pattern.
Proof.
  split.
  - intros [before [after H]].
    apply fold_case_split in H as [s1 [rest [-> [H1 H]]]].
    apply fold_case_split in H as [u [s3 [-> [Hu H3]]]].
    exists u. split; [now exists s1, s3 | exact Hu].
  - intros [u [[before [after ->]] <-]].
    exists (Spec.fold_case before), (Spec.fold_case after).
    now rewrite !fold_case_app.
Qed.

(** The Content-Type test of the router is a match in any letter casing. *)
Lemma content_type_test (content_type : string) :
  PyStr.contains "application/json" (PyStr.lower content_type) = true <->
  Spec.SubstringAnyCase "application/json" content_type.
Proof.
  rewrite contains_lower_fold.
  - rewrite contains_substring, substring_fold_case. reflexivity.
  - intros c Hc. simpl in Hc.
    repeat (destruct Hc as [<-|Hc]; [vm_compute; repeat constructor|]).
    contradiction.
Qed.

(** C4. For every HTTP request the router hands the request to the JSON-RPC
    shim exactly when the method is POST, the path begins with ["/mcp"], the
    Accept header (the first one, empty when there is none) contains neither
    ["application/json-seq"] nor ["text/event-stream"], and the Content-Type
    header contains ["application/json"] in some letter casing.  In
    particular a POST under the mount prefix whose Accept header contains
    ["text/event-stream"] goes to the streaming handler, whatever its
    Content-Type. *)
Theorem router_selects_jsonrpc_iff (scope : Scope) (accept content_type : string) :
  scope_type scope = "http" ->
  Spec.header_value (scope_headers scope) "accept" accept ->
  Spec.header_value (scope_headers scope) "content-type" content_type ->
  (HybridMCPApp_call scope = JsonRpcShim <->
     scope_method scope = "POST" /\
     (exists rest, scope_path scope = Some ("/mcp" ++ rest)) /\
     ~ Spec.Substring "application/json-seq" accept /\
     ~ Spec.Substring "text/event-stream" accept /\
     Spec.SubstringAnyCase "application/json" content_type)
  /\
  (scope_method scope = "POST" ->
   (exists rest, scope_path scope = Some ("/mcp" ++ rest)) ->
   Spec.Substring "text/event-stream" accept ->
   HybridMCPApp_call scope = StreamApp).
Proof.
  intros Htype Haccept Hct.
  apply headers_get_first in Haccept, Hct.
  assert (Hpath : (exists rest, path_of scope = "/mcp" ++ rest) <->
                  (exists rest, scope_path scope = Some ("/mcp" ++ rest))).
  { unfold path_of. destruct (scope_path scope) as [p|].
    - split; intros [rest H]; exists rest; congruence.
    - split; intros [rest H]; discriminate. }
  assert (Hiff := router_iff scope Htype).
  assert (Hmatch : Spec.Substring "application/json"
                                  (PyStr.lower (content_type_of scope)) <->
                   Spec.SubstringAnyCase "application/json" content_type).
  { rewrite <- contains_substring, content_type_test.
    unfold content_type_of. now rewrite Hct. }
  rewrite should_use_jsonrpc_iff, Hpath, Hmatch in Hiff.
  unfold accept_of in Hiff. rewrite Haccept in Hiff.
  split.
  - rewrite Hiff. tauto.
  - intros _ _ Hacc.
    destruct (HybridMCPApp_call scope) eqn:E; [|reflexivity].
    exfalso. apply proj1 in Hiff. specialize (Hiff eq_refl). tauto.
Qed.

Lemma router_selects_jsonrpc_iff_witness :
  HybridMCPApp_call (post_mcp "application/json"
                              "Application/JSON; charset=utf-8") = JsonRpcShim /\
  HybridMCPApp_call (post_mcp "application/json, text/event-stream"
                              "application/json") = StreamApp.
Proof.
  split.
  - apply (router_selects_jsonrpc_iff
             (post_mcp "application/json" "Application/JSON; charset=utf-8")
             "application/json" "Application/JSON; charset=utf-8" eq_refl).
    + left. exists [("host", "localhost")],
                   [("content-type", "Application/JSON; charset=utf-8")].
      split; [reflexivity|]. intros v [H|[]]. discriminate H.
    + left. exists [("host", "localhost"); ("accept", "application/json")], [].
      split; [reflexivity|]. intros v [H|[H|[]]]; discriminate H.
    + split; [reflexivity|]. split; [now exists ""|].
      split; [apply contains_false_iff; reflexivity|].
      split; [apply contains_false_iff; reflexivity|].
      exists "Application/JSON". split; [|reflexivity].
      now exists "", "; charset=utf-8".
  - apply (router_selects_jsonrpc_iff
             (post_mcp "application/json, text/event-stream" "application/json")
             "application/json, text/event-stream" "application/json" eq_refl).
    + left. exists [("host", "localhost")],
                   [("content-type", "application/json")].
      split; [reflexivity|]. intros v [H|[]]. discriminate H.
    + left. exists [("host", "localhost");
                    ("accept", "application/json, text/event-stream")], [].
      split; [reflexivity|]. intros v [H|[H|[]]]; discriminate H.
    + reflexivity.
    + now exists "".
    + now exists "application/json, ", "".
Defined.



(** ** OpenAIEmbeddingProvider *)

Section Sorting.

Context {A : Type} (key : A -> Z).

Lemma insert_by_perm (x : A) (l : list A) :
  Permutation (insert_by key x l) (x :: l).
Proof.
  induction l as [|y l IH]; simpl; [reflexivity|].
  destruct (key x <=? key y)%Z; [reflexivity|].
  rewrite IH. apply perm_swap.
Qed.

Lemma sorted_perm (l : list A) : Permutation (sorted key l) l.
Proof.
  induction l as [|x l IH]; simpl; [reflexivity|].
  now rewrite insert_by_perm, IH.
Qed.

Lemma insert_by_strict (x : A) (l : list A) :
  ~ In (key x) (map key l) ->
  StronglySorted (key_lt key) l ->
  StronglySorted (key_lt key) (insert_by key x l).
Proof.
  induction l as [|y l IH]; intros Hfresh Hsorted; simpl.
  - constructor; constructor.
  - apply StronglySorted_inv in Hsorted as [Hl Hy].
    destruct (key x <=? key y)%Z eqn:E.
    + apply Z.leb_le in E.
      assert (Hxy : key_lt key x y).
      { unfold key_lt. simpl in Hfresh.
        assert (key y <> key x) by tauto. lia. }
      constructor; [constructor; assumption|].
      constructor; [exact Hxy|].
      eapply Forall_impl; [|exact Hy].
      unfold key_lt in *. intros z Hz. lia.
    + apply Z.leb_gt in E.
      constructor.
      * apply IH; [simpl in Hfresh; tauto | exact Hl].
      * eapply Permutation_Forall; [symmetry; apply insert_by_perm|].
        constructor; assumption.
Qed.

Lemma sorted_strict (l : list A) :
  NoDup (map key l) -> StronglySorted (key_lt key) (sorted key l).
Proof.
  induction l as [|x l IH]; intros Hnd; simpl; [constructor|].
  inversion Hnd as [|k ks Hfresh Hnd']; subst.
  apply insert_by_strict; [|auto].
  intros Hin. apply Hfresh.
  eapply Permutation_in; [|exact Hin].
  apply Permutation_map, sorted_perm.
Qed.

(** A strictly increasing arrangement of a list is unique. *)
Lemma strict_perm_unique (l1 l2 : list A) :
  StronglySorted (key_lt key) l1 -> StronglySorted (key_lt key) l2 ->
  Permutation l1 l2 -> l1 = l2.
Proof.
  revert l2; induction l1 as [|a l1 IH]; intros l2 H1 H2 Hperm.
  - now apply Permutation_nil in Hperm.
  - destruct l2 as [|b l2];
      [symmetry in Hperm; now apply Permutation_nil in Hperm|].
    apply StronglySorted_inv in H1 as [H1 Ha].
    apply StronglySorted_inv in H2 as [H2 Hb].
    rewrite Forall_forall in Ha, Hb.
    assert (Hab : a = b).
    { assert (Hin_a : In a (b :: l2))
        by (eapply Permutation_in; [exact Hperm | now left]).
      assert (Hin_b : In b (a :: l1))
        by (eapply Permutation_in; [symmetry; exact Hperm | now left]).
      destruct Hin_a as [Heq|Hin_a]; [now symmetry|].
      destruct Hin_b as [Heq|Hin_b]; [assumption|].
      specialize (Ha _ Hin_b). specialize (Hb _ Hin_a).
      unfold key_lt in *. lia. }
    subst b. f_equal. apply IH; try assumption.
    eapply Permutation_cons_inv; exact Hperm.
Qed.

Lemma strict_nodup (l : list A) :
  StronglySorted (key_lt key) l -> NoDup (map key l).
Proof.
  intros Hs. induction Hs as [|a l Hs IH Ha]; simpl; constructor; [|exact IH].
  intros Hin. apply in_map_iff in Hin as [b [Hk Hb]].
  rewrite Forall_forall in Ha. specialize (Ha _ Hb).
  unfold key_lt in Ha. lia.
Qed.

Lemma sorted_of_strict (l : list A) :
  StronglySorted (key_lt key) l -> sorted key l = l.
Proof.
  intros Hs.
  apply strict_perm_unique;
    [now apply sorted_strict, strict_nodup | exact Hs | apply sorted_perm].
Qed.

Lemma sorted_perm_invariant (l l' : list A) :
  NoDup (map key l) -> Permutation l l' -> sorted key l' = sorted key l.
Proof.
  intros Hnd Hperm.
  apply strict_perm_unique.
  - apply sorted_strict.
    eapply Permutation_NoDup; [apply Permutation_map; exact Hperm | exact Hnd].
  - now apply sorted_strict.
  - now rewrite !sorted_perm.
Qed.

End Sorting.

Lemma tagged_from_strict {V} (vectors : list (list V)) (i : Z) :
  StronglySorted (key_lt index_key) (tagged_from i vectors) /\
  Forall (fun item => (i <= index_key item)%Z) (tagged_from i vectors).
Proof.
  revert i; induction vectors as [|v vectors IH]; intros i; simpl.
  - split; constructor.
  - destruct (IH (i + 1)%Z) as [Hs Hge]. split.
    + constructor; [exact Hs|].
      eapply Forall_impl; [|exact Hge].
      unfold key_lt. simpl. intros item Hitem. unfold index_key at 1. simpl. lia.
    + constructor; [unfold index_key; simpl; lia|].
      eapply Forall_impl; [|exact Hge]. simpl. intros item Hitem. lia.
Qed.

Lemma tagged_from_embeddings {V} (vectors : list (list V)) (i : Z) :
  map (fun item => embedding item) (tagged_from i vectors) = vectors.
Proof.
  revert i; induction vectors as [|v vectors IH]; intros i; simpl;
    [reflexivity | now rewrite IH].
Qed.

(** X23. When the provider tags each vector with the position of its text,
    the vectors come back in the order of the texts however the response is
    ordered. *)
Lemma embed_documents_aligns_with_inputs
      {V} (vectors : list (list V)) (response_data : list (EmbeddingItem V)) :
  Permutation (tagged_from 0 vectors) response_data ->
  embed_documents response_data = vectors.
Proof.
  intros Hperm. unfold embed_documents.
  destruct (tagged_from_strict vectors 0) as [Hs _].
  rewrite (sorted_perm_invariant index_key (tagged_from 0 vectors) response_data)
    by (auto using strict_nodup).
  rewrite sorted_of_strict by exact Hs.
  apply tagged_from_embeddings.
Qed.

(** On items without distinguishing index the sort keeps the order of the
    response, so a reordered response gives reordered vectors. *)
Lemma embed_documents_order_dependent :
  Permutation [untagged_item; zero_item] [zero_item; untagged_item] /\
  embed_documents [untagged_item; zero_item] = [[1; 2]; [3; 4]]%Z /\
  embed_documents [zero_item; untagged_item] = [[3; 4]; [1; 2]]%Z.
Proof.
  split; [apply perm_swap|]. split; reflexivity.
Qed.

(** C8, as amended. For every response whose items carry pairwise distinct
    index tags, and every reordering of its items, the extracted vectors
    are those extracted from the response itself, and they are the
    vectors of the arrangement of the items by increasing index. *)
Theorem embed_documents_permutation_invariant
        {V : Type} (data reordered : list (EmbeddingItem V)) :
  NoDup (map index_key data) ->
  Permutation data reordered ->
  embed_documents reordered = embed_documents data /\
  forall canonical,
    Permutation data canonical ->
    StronglySorted (key_lt index_key) canonical ->
    embed_documents reordered = map (fun item => embedding item) canonical.
Proof.
  intros Hnd Hperm. unfold embed_documents. split.
  - now rewrite (sorted_perm_invariant index_key data reordered).
  - intros canonical Hcan Hsorted.
    rewrite (sorted_perm_invariant index_key data reordered) by assumption.
    rewrite <- (sorted_perm_invariant index_key data canonical) by assumption.
    now rewrite sorted_of_strict.
Qed.

Lemma embed_documents_permutation_invariant_witness :
  let data := [ {| item_index := Some 2; embedding := [7] |};
                {| item_index := Some 0; embedding := [5] |};
                {| item_index := Some 1; embedding := [6] |} ]%Z in
  let reordered := tagged_from 0 [[5]; [6]; [7]]%Z in
  embed_documents reordered = embed_documents data /\
  embed_documents reordered = [[5]; [6]; [7]]%Z.
Proof.
  intros data reordered.
  assert (Hnd : NoDup (map index_key data)).
  { simpl. repeat constructor; simpl; intuition discriminate. }
  assert (Hperm : Permutation data reordered).
  { exact (Permutation_cons_append [_; _] _). }
  destruct (embed_documents_permutation_invariant data reordered Hnd Hperm)
    as [Hsame Hcanonical].
  split; [exact Hsame|].
  apply (Hcanonical reordered Hperm).
  unfold key_lt. simpl. repeat constructor; simpl; lia.
Defined.

(** * Further properties of the sources *)

(** ** ToolNameResolver: inputs of any type *)

Lemma split1_two (c : ascii) (s a b : string) :
  PyStr.split1 c s = [a; b] -> s = a ++ String c b.
Proof.
  revert a; induction s as [|x s IH]; intros a H; simpl in H.
  - discriminate.
  - destruct (Ascii.eqb x c) eqn:E.
    + apply Ascii.eqb_eq in E. subst x. now injection H as <- <-.
    + destruct (PyStr.split1 c s) as [|hd tl]; [discriminate|].
      injection H as <- ->. simpl. f_equal. now apply IH.
Qed.

(** X1. The resolver returns a name exactly on a non-empty [str]: on
    [None], [""] and every other falsy value it raises
    ["Missing tool name"], and on any other value a [TypeError] or an
    [AttributeError]. *)
Theorem resolve_returns_iff_nonempty_str (raw_name : json) :
  ((exists name, _resolve_tool_name raw_name = Ok name) <->
   (exists s, raw_name = JStr s /\ s <> "")) /\
  (Py.truthy raw_name = false ->
   _resolve_tool_name raw_name = Raise (ValueError "Missing tool name")) /\
  (Py.truthy raw_name = true -> (forall s, raw_name <> JStr s) ->
   exists msg, _resolve_tool_name raw_name = Raise (TypeError msg) \/
               _resolve_tool_name raw_name = Raise (AttributeError msg)).
Proof.
  split; [|split].
  - split.
    + intros [name H]. unfold _resolve_tool_name in H.
      destruct (Py.truthy raw_name) eqn:Et; simpl in H; [|discriminate].
      destruct raw_name as [| | | |s|l|kv]; try discriminate.
      * exists s. split; [reflexivity|]. intros ->. discriminate.
      * destruct (existsb _ l); discriminate.
      * destruct (existsb _ kv); discriminate.
    + intros [s [-> Hs]]. rewrite resolve_nonempty by exact Hs.
      rewrite resolve_str_spec. now eexists.
  - intros Ht. unfold _resolve_tool_name. now rewrite Ht.
  - intros Ht Hns. unfold _resolve_tool_name. rewrite Ht. simpl negb. cbv iota.
    destruct raw_name as [| |z|f|s|l|kv]; try discriminate.
    + eexists. left. reflexivity.
    + eexists. left. reflexivity.
    + eexists. left. reflexivity.
    + exfalso. now apply (Hns s).
    + destruct (existsb _ l); eexists; right; reflexivity.
    + destruct (existsb _ kv); eexists; right; reflexivity.
Qed.

Lemma resolve_returns_iff_nonempty_str_witness :
  _resolve_tool_name (JInt 0) = Raise (ValueError "Missing tool name") /\
  exists msg,
    _resolve_tool_name (JArr [JStr "."]) = Raise (TypeError msg) \/
    _resolve_tool_name (JArr [JStr "."]) = Raise (AttributeError msg).
Proof.
  split.
  - apply (resolve_returns_iff_nonempty_str (JInt 0)). reflexivity.
  - apply (resolve_returns_iff_nonempty_str (JArr [JStr "."]));
      [reflexivity | discriminate].
Defined.

(** X2. Resolution only removes text at the front: the returned name is the
    raw name without a front part, and that front part is empty, the
    literal prefix ["qdrant_"], or one of the three namespaces followed by
    the separator. *)
Theorem resolve_strips_front_only (raw name : string) :
  _resolve_tool_name (JStr raw) = Ok name ->
  exists front,
    raw = front ++ name /\
    (front = "" \/ front = "qdrant_" \/
     exists ns, In ns known_namespaces /\ front = ns ++ ".").
Proof.
  intros H.
  assert (Hne : raw <> "") by (intros ->; discriminate).
  rewrite resolve_nonempty in H by exact Hne. unfold resolve_str in H.
  destruct (PyStr.contains "." raw).
  - destruct (PyStr.split1 dot raw) as [|ns [|rest [|x l]]] eqn:Hsplit;
      try discriminate.
    destruct (in_known_namespaces ns) eqn:Hns; injection H as <-.
    + exists (ns ++ "."). apply split1_two in Hsplit. split.
      * rewrite Hsplit. unfold dot. clear. induction ns; simpl; congruence.
      * right. right. exists ns. split; [|reflexivity].
        unfold in_known_namespaces in Hns.
        apply existsb_exists in Hns as [x [Hx Heq]].
        apply String.eqb_eq in Heq. now subst x.
    + exists "". split; [reflexivity | now left].
  - destruct (PyStr.startswith raw "qdrant_") eqn:Hp; injection H as <-.
    + apply startswith_app in Hp as [t ->]. exists "qdrant_".
      split; [reflexivity | right; now left].
    + exists "". split; [reflexivity | now left].
Qed.

Lemma resolve_strips_front_only_witness :
  exists front,
    "qdrant-rag.qdrant-find" = front ++ "qdrant-find" /\
    (front = "" \/ front = "qdrant_" \/
     exists ns, In ns known_namespaces /\ front = ns ++ ".").
Proof.
  apply (resolve_strips_front_only "qdrant-rag.qdrant-find" "qdrant-find").
  reflexivity.
Defined.

(** ** ContentNormalizer: composition *)

(** X3. Normalizing a concatenation is concatenating the normalizations,
    and no item gives no block: blocks of a later batch never depend on an
    earlier one. *)
Theorem serialize_content_app (items more : list PyObject) :
  _serialize_content (items ++ more) =
    (_serialize_content items ++ _serialize_content more)%list /\
  (_serialize_content items = [] <-> items = []).
Proof.
  rewrite !serialize_content_map. split; [apply map_app|].
  destruct items; simpl; split; congruence.
Qed.

(** ** ToolInvoker: every path of [_call_tool_direct] *)

Section InvokerPaths.

Context {srv : Server}.

Ltac run_invoker :=
  unfold _call_tool_direct, bind, lift, ret, raise, py_get, no_attribute,
    connector_store, connector_search, Entry_new, Filter_new.

Ltac split_matches :=
  repeat (cbv beta;
          match goal with
          | |- context [match ?x with _ => _ end] =>
              lazymatch x with
              | context [match _ with _ => _ end] => fail
              | _ => destruct x eqn:?
              end
          end).

(** X4. One invocation calls the vector store at most once, and only with
    the operation of the tool: the log is left as it was or grows by one
    [store] call for the store tool and by one [search] call for the find
    tool, whatever the arguments and whether the tool returns or raises. *)
Theorem call_tool_at_most_one_call
        (name : string) (arguments : json) (log : list call) :
  let log' := snd (_call_tool_direct name arguments log) in
  log' = log \/
  (name = "qdrant-store" /\
   exists entry collection, log' = (log ++ [CallStore entry collection])%list) \/
  (name = "qdrant-find" /\
   exists query collection limit query_filter,
     log' = (log ++ [CallSearch query collection limit query_filter])%list).
Proof.
  cbv zeta. run_invoker.
  destruct (String.eqb name "qdrant-store") eqn:Es.
  - apply String.eqb_eq in Es.
    destruct arguments; try (left; reflexivity).
    split_matches; simpl; try (left; reflexivity);
      right; left; (split; [exact Es|]); eauto.
  - destruct (String.eqb name "qdrant-find") eqn:Ef; [|left; reflexivity].
    apply String.eqb_eq in Ef.
    destruct arguments; try (left; reflexivity).
    split_matches; simpl; try (left; reflexivity);
      right; right; (split; [exact Ef|]); eauto 6.
Qed.

(** X5. A tool that returns, returns at least one text. *)
Theorem call_tool_result_nonempty
        (name : string) (arguments : json) (log log' : list call)
        (texts : list string) :
  _call_tool_direct name arguments log = (Ok texts, log') ->
  texts <> [].
Proof.
  run_invoker. intros H Hnil. subst texts. revert H.
  destruct (String.eqb name "qdrant-store").
  - destruct arguments; try discriminate.
    split_matches; discriminate.
  - destruct (String.eqb name "qdrant-find"); [|discriminate].
    destruct arguments; try discriminate.
    split_matches; try discriminate.
    all: rewrite fold_left_snoc; discriminate.
Qed.

(** X6. Any name other than the two tool names raises ["Unknown tool: "]
    followed by the name, before the arguments are looked at and without
    calling the vector store. *)
Theorem call_tool_unknown_name
        (name : string) (arguments : json) (log : list call) :
  name <> "qdrant-store" -> name <> "qdrant-find" ->
  _call_tool_direct name arguments log =
    (Raise (ValueError ("Unknown tool: " ++ name)), log).
Proof.
  intros Hs Hf. apply String.eqb_neq in Hs, Hf.
  unfold _call_tool_direct. now rewrite Hs, Hf.
Qed.

(** X7. The store tool with a truthy [information], a resolvable collection
    and an entry the model accepts: the vector store is asked once to store
    the entry made of [information] and [metadata] in the collection, and
    when it accepts, the result is the single text
    ["Remembered: <information> in collection <collection>"]; when it
    raises, the tool raises the same exception after the call. *)
Theorem store_tool_outcome
        (fields : list (string * json)) (log : list call) :
  let information := Py.lookup "information" fields in
  let collection := effective_collection (Py.lookup "collection_name" fields) in
  let entry := {| content := information;
                  metadata := Py.lookup "metadata" fields |} in
  Py.truthy information = true ->
  Py.truthy collection = true ->
  entry_error information (Py.lookup "metadata" fields) = None ->
  _call_tool_direct "qdrant-store" (JObj fields) log =
    (match store_reply log entry collection with
     | None => Ok ["Remembered: " ++ py_str information
                   ++ " in collection " ++ py_str collection]
     | Some e => Raise e
     end,
     (log ++ [CallStore entry collection])%list).
Proof.
  intros information collection entry Hinfo Hcol Hentry.
  run_invoker. change ("qdrant-store" =? "qdrant-store") with true. cbv iota.
  fold information collection. rewrite Hinfo, Hcol, Hentry.
  change (negb true) with false. cbv beta iota. fold entry.
  now destruct (store_reply log entry collection).
Qed.

(** X8. Without a truthy [collection_name] argument and without a
    configured default (none, or the empty string), both tools raise
    ["collection_name is required when no default is set"] once their
    required argument is present, and the vector store is not called. *)
Theorem collection_name_required
        (fields : list (string * json)) (log : list call) :
  Py.truthy (Py.lookup "collection_name" fields) = false ->
  settings_collection_name = None \/ settings_collection_name = Some "" ->
  let failure :=
    (@Raise (list string)
       (ValueError "collection_name is required when no default is set"), log)
  in
  (Py.truthy (Py.lookup "information" fields) = true ->
   _call_tool_direct "qdrant-store" (JObj fields) log = failure) /\
  (Py.truthy (Py.lookup "query" fields) = true ->
   _call_tool_direct "qdrant-find" (JObj fields) log = failure).
Proof.
  intros Hexplicit Hdefault failure.
  assert (Hcol : Py.truthy
                   (effective_collection (Py.lookup "collection_name" fields))
                 = false).
  { unfold effective_collection, Py.or. rewrite Hexplicit.
    destruct Hdefault as [-> | ->]; reflexivity. }
  split; intros Harg; run_invoker.
  - change ("qdrant-store" =? "qdrant-store") with true. cbv iota.
    now rewrite Harg, Hcol.
  - change ("qdrant-find" =? "qdrant-store") with false.
    change ("qdrant-find" =? "qdrant-find") with true. cbv iota.
    now rewrite Harg, Hcol.
Qed.

(** X9. An entry the model rejects and a filter that does not build stop
    the tool before the vector store is called: the exception of the
    constructor is raised and the log is unchanged. *)
Theorem constructor_failure_precedes_call
        (fields : list (string * json)) (log : list call) (e : exn) :
  Py.truthy (effective_collection (Py.lookup "collection_name" fields)) = true ->
  (Py.truthy (Py.lookup "information" fields) = true ->
   entry_error (Py.lookup "information" fields) (Py.lookup "metadata" fields)
     = Some e ->
   _call_tool_direct "qdrant-store" (JObj fields) log = (Raise e, log)) /\
  (Py.truthy (Py.lookup "query" fields) = true ->
   Py.truthy (Py.lookup "query_filter" fields) = true ->
   filter_error (Py.lookup "query_filter" fields) = Some e ->
   _call_tool_direct "qdrant-find" (JObj fields) log = (Raise e, log)).
Proof.
  intros Hcol. split.
  - intros Hinfo Hentry. run_invoker.
    change ("qdrant-store" =? "qdrant-store") with true. cbv iota.
    now rewrite Hinfo, Hcol, Hentry.
  - intros Hq Htf Hfilter. run_invoker.
    change ("qdrant-find" =? "qdrant-store") with false.
    change ("qdrant-find" =? "qdrant-find") with true. cbv iota.
    now rewrite Hq, Hcol, Htf, Hfilter.
Qed.

End InvokerPaths.

Lemma call_tool_result_nonempty_witness :
  ["Remembered: buy milk in collection notes"] <> [].
Proof.
  apply (call_tool_result_nonempty (srv := memory_server)
           "qdrant-store" (JObj [("information", JStr "buy milk")]) []
           [CallStore note_entry (JStr "notes")]).
  reflexivity.
Defined.

Lemma call_tool_unknown_name_witness :
  _call_tool_direct (srv := memory_server) "qdrant-delete" (JInt 3) log_with_note
  = (Raise (ValueError "Unknown tool: qdrant-delete"), log_with_note).
Proof.
  apply (call_tool_unknown_name (srv := memory_server)); discriminate.
Defined.

Lemma store_tool_outcome_witness :
  _call_tool_direct (srv := memory_server) "qdrant-store"
                    (JObj [("information", JStr "buy milk")]) []
  = (Ok ["Remembered: buy milk in collection notes"],
     [CallStore note_entry (JStr "notes")]) /\
  _call_tool_direct (srv := unreachable_server) "qdrant-store"
                    (JObj [("information", JStr "buy milk")]) []
  = (Raise (OtherError "ConnectionError" "connection refused"),
     [CallStore note_entry (JStr "notes")]).
Proof.
  split.
  - exact (store_tool_outcome (srv := memory_server)
             [("information", JStr "buy milk")] [] eq_refl eq_refl eq_refl).
  - exact (store_tool_outcome (srv := unreachable_server)
             [("information", JStr "buy milk")] [] eq_refl eq_refl eq_refl).
Defined.

Lemma collection_name_required_witness :
  _call_tool_direct (srv := server_without_default) "qdrant-find"
                    (JObj [("query", JStr "milk"); ("collection_name", JStr "")])
                    log_with_note
  = (Raise (ValueError "collection_name is required when no default is set"),
     log_with_note).
Proof.
  apply (collection_name_required (srv := server_without_default)
           [("query", JStr "milk"); ("collection_name", JStr "")] log_with_note);
    [reflexivity | left; reflexivity | reflexivity].
Defined.

Lemma constructor_failure_precedes_call_witness :
  _call_tool_direct (srv := memory_server) "qdrant-find"
                    (JObj [("query", JStr "milk"); ("query_filter", JArr [JInt 1])])
                    log_with_note
  = (Raise (TypeError "argument after ** must be a mapping"), log_with_note).
Proof.
  apply (constructor_failure_precedes_call (srv := memory_server)
           [("query", JStr "milk"); ("query_filter", JArr [JInt 1])]
           log_with_note);
    reflexivity.
Defined.

(** ** JsonRpcDispatcher: every method *)

Lemma eq_str_iff (v : json) (s : string) :
  Py.eq_str v s = true <-> v = JStr s.
Proof.
  destruct v; simpl; try (split; [discriminate | intros H; discriminate]).
  rewrite String.eqb_eq. split; congruence.
Qed.

Lemma eq_str_false_iff (v : json) (s : string) :
  Py.eq_str v s = false <-> v <> JStr s.
Proof.
  rewrite <- eq_str_iff. destruct (Py.eq_str v s); split; congruence.
Qed.


(** A builder that returns, returns status 200, an envelope around the id it
    was given, and that id can be rendered. *)
Lemma jsonrpc_result_returns (id_value result : json) (response : JSONResponse) :
  _jsonrpc_result id_value result = Ok response ->
  status_code response = 200%Z /\
  Spec.Renderable id_value /\
  body response = Spec.result_envelope id_value result.
Proof.
  rewrite jsonrpc_result_outcome.
  destruct (json_compliant id_value) eqn:Hid; simpl; [|discriminate].
  destruct (json_compliant result); [|discriminate].
  intros H. injection H as <-. apply json_compliant_iff in Hid. auto.
Qed.

Lemma jsonrpc_error_returns (id_value : json) (code : Z) (message : string)
      (response : JSONResponse) :
  _jsonrpc_error id_value code message = Ok response ->
  status_code response = 200%Z /\
  Spec.Renderable id_value /\
  body response = Spec.error_envelope id_value code message.
Proof.
  rewrite jsonrpc_error_outcome.
  destruct (json_compliant id_value) eqn:Hid; [|discriminate].
  intros H. injection H as <-. apply json_compliant_iff in Hid. auto.
Qed.

Section DispatcherPaths.

Context {srv : Server}.

(** The [tools/call] branch, whatever the params hold. *)
Lemma handle_tools_call_any (fields : list (string * json)) (log : list call) :
  Py.lookup "method" fields = JStr "tools/call" ->
  _handle_jsonrpc (Some (JObj fields)) log =
    let id_value := Py.lookup "id" fields in
    match Py.or (Py.lookup "params" fields) (JObj []) with
    | JObj params =>
        match _resolve_tool_name (Py.lookup "name" params) with
        | Raise e => (Raise e, log)
        | Ok name =>
            match _call_tool_direct
                    name (Py.or (Py.lookup "arguments" params) (JObj [])) log
            with
            | (Ok texts, log') =>
                (_jsonrpc_result id_value
                   (JObj [("content", JArr (map Spec.text_block texts))]),
                 log')
            | (Raise exc, log') =>
                (_jsonrpc_error id_value (-32000) (exn_str exc), log')
            end
        end
    | other => (no_attribute other "get", log)
    end.
Proof.
  intros Hmethod. cbv zeta.
  destruct (Py.or (Py.lookup "params" fields) (JObj [])) as [| | | | | |params]
    eqn:Hparams;
    try (unfold _handle_jsonrpc, bind, lift, py_get; rewrite Hmethod; simpl;
         rewrite Hparams; reflexivity).
  destruct (_resolve_tool_name (Py.lookup "name" params)) as [name|e] eqn:Hname.
  - exact (handle_tools_call fields params name log Hmethod Hparams Hname).
  - unfold _handle_jsonrpc, bind, lift, py_get. rewrite Hmethod. simpl.
    now rewrite Hparams, Hname.
Qed.

(** The other branches: a result, the registry's exception, or error
    [-32601]; the log is not touched. *)
Lemma handle_other_methods (fields : list (string * json)) (log : list call) :
  Py.lookup "method" fields <> JStr "tools/call" ->
  let method := Py.lookup "method" fields in
  let id_value := Py.lookup "id" fields in
  (exists result,
      In method (map JStr ["initialize"; "tools/list"; "tools/list_changed"; "ping"]) /\
      _handle_jsonrpc (Some (JObj fields)) log =
        (_jsonrpc_result id_value result, log)) \/
  (exists e,
      method = JStr "tools/list" /\ get_tools = Raise e /\
      _handle_jsonrpc (Some (JObj fields)) log = (Raise e, log)) \/
  ((forall m, In m known_methods -> method <> JStr m) /\
   _handle_jsonrpc (Some (JObj fields)) log =
     (_jsonrpc_error id_value (-32601)
        ("Method not implemented: " ++ py_str method), log)).
Proof.
  intros Hcall method id_value.
  unfold _handle_jsonrpc, _tool_payload, bind, lift, ret, py_get.
  fold method id_value.
  apply eq_str_false_iff in Hcall. fold method in Hcall. rewrite Hcall.
  destruct (Py.eq_str method "initialize") eqn:E1.
  { left. eexists. split; [|reflexivity].
    apply eq_str_iff in E1. rewrite E1. simpl. tauto. }
  destruct (Py.eq_str method "tools/list") eqn:E2.
  { apply eq_str_iff in E2. destruct get_tools as [tools|e] eqn:Hreg.
    - left. eexists. split; [|reflexivity]. rewrite E2. simpl. tauto.
    - right. left. exists e. repeat split; assumption. }
  destruct (Py.eq_str method "tools/list_changed") eqn:E3.
  { left. eexists. split; [|reflexivity].
    apply eq_str_iff in E3. rewrite E3. simpl. tauto. }
  destruct (Py.eq_str method "ping") eqn:E4.
  { left. eexists. split; [|reflexivity].
    apply eq_str_iff in E4. rewrite E4. simpl. tauto. }
  right. right. split; [|reflexivity].
  apply eq_str_false_iff in E1, E2, E3, E4, Hcall.
  intros m Hm. simpl in Hm.
  destruct Hm as [<-|[<-|[<-|[<-|[<-|[]]]]]]; assumption.
Qed.



(** X12. Only [tools/call] reaches the vector store: on an unparseable
    body, on a body that is not an object and on every other method the log
    of calls is unchanged, whether the handler returns or raises. *)
Theorem only_tools_call_reaches_store
        (request_json : option json) (log : list call) :
  (forall fields, request_json = Some (JObj fields) ->
                  Py.lookup "method" fields <> JStr "tools/call") ->
  snd (_handle_jsonrpc request_json log) = log.
Proof.
  intros Hmethod.
  destruct request_json as [payload|]; [|reflexivity].
  destruct payload as [| | | | | |fields]; try reflexivity.
  specialize (Hmethod fields eq_refl).
  destruct (handle_other_methods fields log Hmethod)
    as [[result [_ H]] | [[e [_ [_ H]]] | [_ H]]]; now rewrite H.
Qed.

(** X13. Every response to a parsed body has status 200 and a body that is
    one of the two envelopes around the [id] of the request as it came,
    which then holds no float that JSON cannot carry: either
    [{"jsonrpc": "2.0", "id": id, "result": ...}] or
    [{"jsonrpc": "2.0", "id": id, "error": {"code": ..., "message": ...}}],
    never both keys; the error code is [-32000] (only for [tools/call]) or
    [-32601] (only for an unknown method). *)
Theorem response_envelope
        (payload : json) (log log' : list call) (response : JSONResponse) :
  _handle_jsonrpc (Some payload) log = (Ok response, log') ->
  exists fields,
    payload = JObj fields /\
    status_code response = 200%Z /\
    let id_value := Py.lookup "id" fields in
    let method := Py.lookup "method" fields in
    Spec.Renderable id_value /\
    ((exists result,
         body response =
           JObj [("jsonrpc", JStr "2.0"); ("id", id_value); ("result", result)])
     \/
     (exists message,
         body response =
           JObj [("jsonrpc", JStr "2.0"); ("id", id_value);
                 ("error", JObj [("code", JInt (-32000));
                                 ("message", JStr message)])] /\
         method = JStr "tools/call") \/
     (exists message,
         body response =
           JObj [("jsonrpc", JStr "2.0"); ("id", id_value);
                 ("error", JObj [("code", JInt (-32601));
                                 ("message", JStr message)])] /\
         forall m, In m known_methods -> method <> JStr m)).
Proof.
  intros Hrun.
  destruct payload as [| | | | | |fields]; try discriminate.
  exists fields. split; [reflexivity|]. cbv zeta.
  destruct (Py.eq_str (Py.lookup "method" fields) "tools/call") eqn:Ecall.
  - apply eq_str_iff in Ecall.
    rewrite (handle_tools_call_any fields log Ecall) in Hrun. cbv zeta in Hrun.
    destruct (Py.or (Py.lookup "params" fields) (JObj [])); try discriminate.
    destruct (_resolve_tool_name _); [|discriminate].
    destruct (_call_tool_direct _ _ log) as [[texts|exc] log''];
      injection Hrun as Hrun _.
    + apply jsonrpc_result_returns in Hrun as [H200 [Hid Hbody]].
      repeat split; try assumption. left. eexists. exact Hbody.
    + apply jsonrpc_error_returns in Hrun as [H200 [Hid Hbody]].
      repeat split; try assumption. right. left. eexists.
      split; [exact Hbody | assumption].
  - apply eq_str_false_iff in Ecall.
    destruct (handle_other_methods fields log Ecall)
      as [[result [_ H]] | [[e [_ [_ H]]] | [Hunknown H]]];
      rewrite H in Hrun; try discriminate; injection Hrun as Hrun _.
    + apply jsonrpc_result_returns in Hrun as [H200 [Hid Hbody]].
      repeat split; try assumption. left. eexists. exact Hbody.
    + apply jsonrpc_error_returns in Hrun as [H200 [Hid Hbody]].
      repeat split; try assumption. right. right. eexists.
      split; [exact Hbody | assumption].
Qed.

(** X14. A returned response has status 400 exactly when the body did not
    parse. *)
Theorem bad_request_iff_unparseable
        (request_json : option json) (log log' : list call)
        (response : JSONResponse) :
  _handle_jsonrpc request_json log = (Ok response, log') ->
  (status_code response = 400%Z <-> request_json = None).
Proof.
  intros Hrun. destruct request_json as [payload|].
  - split; [|discriminate]. intros H400. exfalso.
    destruct payload as [| | | | | |fields]; try discriminate.
    assert (H200 : status_code response = 200%Z); [|rewrite H200 in H400; discriminate].
    destruct (Py.eq_str (Py.lookup "method" fields) "tools/call") eqn:Ecall.
    + apply eq_str_iff in Ecall.
      rewrite (handle_tools_call_any fields log Ecall) in Hrun.
      cbv zeta in Hrun.
      destruct (Py.or (Py.lookup "params" fields) (JObj [])); try discriminate.
      destruct (_resolve_tool_name _); [|discriminate].
      destruct (_call_tool_direct _ _ log) as [[texts|exc] log''];
        injection Hrun as Hrun _.
      * now apply jsonrpc_result_returns in Hrun.
      * now apply jsonrpc_error_returns in Hrun.
    + apply eq_str_false_iff in Ecall.
      destruct (handle_other_methods fields log Ecall)
        as [[result [_ H]] | [[e [_ [_ H]]] | [_ H]]];
        rewrite H in Hrun; try discriminate; injection Hrun as Hrun _.
      * now apply jsonrpc_result_returns in Hrun.
      * now apply jsonrpc_error_returns in Hrun.
  - injection Hrun as <- _. split; reflexivity.
Qed.

(** X15. A body that parses to something other than an object (an array, a
    string, a number, [true], [null]) is not answered: reading its method
    raises an [AttributeError], and nothing is sent to the vector store. *)
Theorem non_object_payload_raises (payload : json) (log : list call) :
  (forall fields, payload <> JObj fields) ->
  _handle_jsonrpc (Some payload) log =
    (Raise (AttributeError
              ("'" ++ Py.type_name payload ++ "' object has no attribute 'get'")),
     log).
Proof.
  intros Hnot. destruct payload; try reflexivity.
  exfalso. now apply (Hnot fields).
Qed.

(** X16. The raw spelling of the tool name does not matter: two
    [tools/call] requests with the same id and arguments whose names resolve
    alike have the same outcome and leave the same log. *)
Theorem alias_transparency
        (fields1 fields2 params1 params2 : list (string * json))
        (log : list call) :
  Py.lookup "method" fields1 = JStr "tools/call" ->
  Py.lookup "method" fields2 = JStr "tools/call" ->
  Py.or (Py.lookup "params" fields1) (JObj []) = JObj params1 ->
  Py.or (Py.lookup "params" fields2) (JObj []) = JObj params2 ->
  Py.lookup "id" fields1 = Py.lookup "id" fields2 ->
  Py.lookup "arguments" params1 = Py.lookup "arguments" params2 ->
  _resolve_tool_name (Py.lookup "name" params1) =
    _resolve_tool_name (Py.lookup "name" params2) ->
  _handle_jsonrpc (Some (JObj fields1)) log =
    _handle_jsonrpc (Some (JObj fields2)) log.
Proof.
  intros Hm1 Hm2 Hp1 Hp2 Hid Hargs Hname.
  rewrite (handle_tools_call_any fields1 log Hm1),
          (handle_tools_call_any fields2 log Hm2).
  cbv zeta. now rewrite Hp1, Hp2, Hid, Hargs, Hname.
Qed.



End DispatcherPaths.



Lemma only_tools_call_reaches_store_witness :
  snd (_handle_jsonrpc (srv := unreachable_server)
         (Some (JObj (request_body (JInt 1) "tools/list" JNull))) log_with_note)
  = log_with_note.
Proof.
  apply (only_tools_call_reaches_store (srv := unreachable_server)).
  intros fields H. injection H as <-. discriminate.
Defined.

Lemma response_envelope_witness :
  let response :=
    {| status_code := 200;
       body := JObj [("jsonrpc", JStr "2.0"); ("id", JStr "abc");
                     ("result", JObj [("status", JStr "ok")])] |} in
  _handle_jsonrpc (srv := memory_server)
    (Some (JObj (request_body (JStr "abc") "ping" JNull))) []
  = (Ok response, []) /\
  exists fields,
    JObj (request_body (JStr "abc") "ping" JNull) = JObj fields /\
    status_code response = 200%Z /\
    Spec.Renderable (Py.lookup "id" fields).
Proof.
  intros response. split; [reflexivity|].
  destruct (response_envelope (srv := memory_server)
              (JObj (request_body (JStr "abc") "ping" JNull)) [] []
              response eq_refl) as [fields [Hp [H200 [Hid _]]]].
  exists fields. auto.
Defined.

Lemma bad_request_iff_unparseable_witness :
  status_code {| status_code := 400;
                 body := JObj [("error", JStr "Invalid JSON-RPC payload")] |}
  = 400%Z <-> @None json = None.
Proof.
  exact (bad_request_iff_unparseable (srv := memory_server) None [] []
           {| status_code := 400;
              body := JObj [("error", JStr "Invalid JSON-RPC payload")] |}
           eq_refl).
Defined.

Lemma non_object_payload_raises_witness :
  _handle_jsonrpc (srv := memory_server) (Some (JArr [])) log_with_note =
    (Raise (AttributeError "'list' object has no attribute 'get'"),
     log_with_note).
Proof.
  apply (non_object_payload_raises (srv := memory_server) (JArr []) log_with_note).
  discriminate.
Defined.

Lemma alias_transparency_witness :
  let arguments := JObj [("query", JStr "milk")] in
  _handle_jsonrpc (srv := memory_server)
    (Some (JObj (request_body (JInt 1) "tools/call"
                   (JObj [("name", JStr "qdrant-rag-mcp.qdrant-find");
                          ("arguments", arguments)]))))
    log_with_note
  = _handle_jsonrpc (srv := memory_server)
      (Some (JObj (request_body (JInt 1) "tools/call"
                     (JObj [("arguments", arguments);
                            ("name", JStr "qdrant_qdrant-find")]))))
      log_with_note.
Proof.
  intros arguments.
  exact (alias_transparency (srv := memory_server)
           (request_body (JInt 1) "tools/call"
              (JObj [("name", JStr "qdrant-rag-mcp.qdrant-find");
                     ("arguments", arguments)]))
           (request_body (JInt 1) "tools/call"
              (JObj [("arguments", arguments);
                     ("name", JStr "qdrant_qdrant-find")]))
           [("name", JStr "qdrant-rag-mcp.qdrant-find"); ("arguments", arguments)]
           [("arguments", arguments); ("name", JStr "qdrant_qdrant-find")]
           log_with_note eq_refl eq_refl eq_refl eq_refl eq_refl eq_refl eq_refl).
Defined.



(** ** RequestRouter: scopes and headers that are not there *)

(** X19. A scope that is not of type [http] (a websocket, the lifespan
    channel) goes to the streaming application whatever its method and
    headers, and so does every request that carries no Content-Type
    header. *)
Theorem router_forwards_to_stream (scope : Scope) :
  (scope_type scope <> "http" -> HybridMCPApp_call scope = StreamApp) /\
  ((forall v, ~ In ("content-type", v) (scope_headers scope)) ->
   HybridMCPApp_call scope = StreamApp).
Proof.
  split.
  - intros Htype. unfold HybridMCPApp_call.
    apply String.eqb_neq in Htype. now rewrite Htype.
  - intros Habsent. unfold HybridMCPApp_call, _should_use_jsonrpc.
    rewrite (headers_get_absent _ "content-type" "" Habsent).
    change (PyStr.contains "application/json" (PyStr.lower "")) with false.
    destruct (negb (String.eqb (scope_type scope) "http")); [reflexivity|].
    rewrite andb_comm.
    destruct (negb (String.eqb (scope_method scope) "POST")); [reflexivity|].
    now destruct (_ || _).
Qed.

Lemma router_forwards_to_stream_witness :
  HybridMCPApp_call {| scope_type := "websocket"; scope_method := "POST";
                       scope_path := Some "/mcp";
                       scope_headers := [("content-type", "application/json")] |}
  = StreamApp /\
  HybridMCPApp_call {| scope_type := "http"; scope_method := "POST";
                       scope_path := Some "/mcp";
                       scope_headers := [("accept", "application/json")] |}
  = StreamApp.
Proof.
  split.
  - apply (proj1 (router_forwards_to_stream _)). discriminate.
  - apply (proj2 (router_forwards_to_stream _)). simpl.
    intros v [H|[]]. discriminate H.
Defined.

(** X20. A missing Accept header does not disqualify: a POST under
    ["/mcp"] without Accept header whose Content-Type contains
    ["application/json"] in any casing goes to the JSON-RPC shim. *)
Theorem router_accepts_missing_accept (scope : Scope) :
  scope_type scope = "http" ->
  scope_method scope = "POST" ->
  (exists rest, path_of scope = "/mcp" ++ rest) ->
  (forall v, ~ In ("accept", v) (scope_headers scope)) ->
  Spec.Substring "application/json" (PyStr.lower (content_type_of scope)) ->
  HybridMCPApp_call scope = JsonRpcShim.
Proof.
  intros Htype Hmethod Hpath Habsent Hct.
  apply (router_iff scope Htype). split; [exact Hpath|].
  apply should_use_jsonrpc_iff.
  assert (Hacc : accept_of scope = "")
    by (apply headers_get_absent; exact Habsent).
  rewrite Hacc. repeat split; try assumption;
    apply contains_false_iff; reflexivity.
Qed.

Lemma router_accepts_missing_accept_witness :
  HybridMCPApp_call
    {| scope_type := "http"; scope_method := "POST";
       scope_path := Some "/mcp/";
       scope_headers := [("content-type", "Application/JSON; charset=utf-8")] |}
  = JsonRpcShim.
Proof.
  apply router_accepts_missing_accept.
  - reflexivity.
  - reflexivity.
  - now exists "/".
  - simpl. intros v [H|[]]. discriminate H.
  - now exists "", "; charset=utf-8".
Defined.

(** ** OpenAIEmbeddingProvider: any response *)

Section StableSort.

Context {A : Type} (key : A -> Z).

Lemma insert_by_sorted (x : A) (l : list A) :
  StronglySorted (key_le key) l ->
  StronglySorted (key_le key) (insert_by key x l).
Proof.
  induction l as [|y l IH]; intros Hsorted; simpl.
  - constructor; constructor.
  - apply StronglySorted_inv in Hsorted as [Hl Hy].
    destruct (key x <=? key y)%Z eqn:E.
    + apply Z.leb_le in E.
      constructor; [constructor; assumption|].
      constructor; [exact E|].
      eapply Forall_impl; [|exact Hy].
      unfold key_le in *. intros z Hz. lia.
    + apply Z.leb_gt in E. constructor; [now apply IH|].
      eapply Permutation_Forall; [symmetry; apply insert_by_perm|].
      constructor; [unfold key_le; lia | exact Hy].
Qed.

Lemma sorted_sorted (l : list A) : StronglySorted (key_le key) (sorted key l).
Proof.
  induction l as [|x l IH]; simpl; [constructor | now apply insert_by_sorted].
Qed.

(** The sort is stable: a list already in order, ties included, is
    returned as it is. *)
Lemma sorted_of_sorted (l : list A) :
  StronglySorted (key_le key) l -> sorted key l = l.
Proof.
  induction l as [|x l IH]; intros Hs; simpl; [reflexivity|].
  apply StronglySorted_inv in Hs as [Hl Hx]. rewrite IH by exact Hl.
  destruct l as [|y l]; simpl; [reflexivity|].
  inversion Hx as [|? ? Hxy _]; subst. unfold key_le in Hxy.
  apply Z.leb_le in Hxy. now rewrite Hxy.
Qed.

End StableSort.

(** X21. For every response the extracted vectors are the vectors of the
    response, each exactly once: as many as there are items, a permutation
    of the items' vectors, taken from the items arranged by non-decreasing
    index (an item without index counting as index 0). *)
Theorem embed_documents_rearranges {V} (response_data : list (EmbeddingItem V)) :
  List.length (embed_documents response_data) = List.length response_data /\
  Permutation (map (fun item => embedding item) response_data)
              (embed_documents response_data) /\
  exists arranged,
    Permutation response_data arranged /\
    StronglySorted (key_le index_key) arranged /\
    embed_documents response_data = map (fun item => embedding item) arranged.
Proof.
  unfold embed_documents. split; [|split].
  - rewrite length_map. apply Permutation_length, sorted_perm.
  - apply Permutation_map. symmetry. apply sorted_perm.
  - exists (sorted index_key response_data). split; [|split].
    + symmetry. apply sorted_perm.
    + apply sorted_sorted.
    + reflexivity.
Qed.

(** X22. A response whose items already come by non-decreasing index is
    extracted in the order received; in particular a response whose items
    all lack an index, or all share one, is never reordered. *)
Theorem embed_documents_keeps_ordered_response
        {V} (response_data : list (EmbeddingItem V)) :
  StronglySorted (key_le index_key) response_data ->
  embed_documents response_data =
    map (fun item => embedding item) response_data.
Proof.
  intros Hs. unfold embed_documents. now rewrite sorted_of_sorted.
Qed.

Lemma embed_documents_keeps_ordered_response_witness :
  embed_documents [zero_item; untagged_item; zero_item]
  = [[3; 4]; [1; 2]; [3; 4]]%Z.
Proof.
  apply (embed_documents_keeps_ordered_response
           [zero_item; untagged_item; zero_item]).
  unfold key_le. repeat constructor; simpl; discriminate.
Defined.

Lemma embed_documents_aligns_with_inputs_witness :
  embed_documents
    [ {| item_index := Some 1; embedding := [6] |};
      {| item_index := Some 2; embedding := [7] |};
      {| item_index := Some 0; embedding := [5] |} ]%Z
  = [[5]; [6]; [7]]%Z.
Proof.
  apply (embed_documents_aligns_with_inputs [[5]; [6]; [7]]%Z).
  exact (Permutation_cons_append [_; _] _).
Defined.

(** X24. For an index-ordered response [embed_query] returns the first
    vector [embed_documents] returns; on an empty response it raises an
    [IndexError] where [embed_documents] returns no vector. *)
Theorem embed_query_agrees_with_documents
        {V} (response_data : list (EmbeddingItem V)) :
  StronglySorted (key_le index_key) response_data ->
  embed_query response_data =
    match embed_documents response_data with
    | [] => index_error
    | first :: _ => Ok first
    end.
Proof.
  intros Hs. unfold embed_documents. rewrite sorted_of_sorted by exact Hs.
  now destruct response_data.
Qed.

Lemma embed_query_agrees_with_documents_witness :
  embed_query [zero_item; untagged_item] = Ok [3; 4]%Z.
Proof.
  apply (embed_query_agrees_with_documents [zero_item; untagged_item]).
  unfold key_le. repeat constructor; simpl; discriminate.
Defined.

(** ** OpenAIEmbeddingProvider: the vector name *)

Lemma chars_app (a b : string) : chars (a ++ b) = (chars a ++ chars b)%list.
Proof. induction a as [|c a IH]; simpl; [reflexivity | now rewrite <- IH]. Qed.

Lemma substring_char_in (c : ascii) (s : string) :
  Spec.Substring (String c "") s -> In c (chars s).
Proof.
  intros [before [after ->]]. rewrite chars_app. apply in_or_app.
  right. now left.
Qed.

Lemma in_chars_lower (c : ascii) (s : string) :
  In c (chars (PyStr.lower s)) ->
  exists a, In a (chars s) /\ c = PyStr.lower_char a.
Proof.
  induction s as [|x s IH]; simpl; [contradiction|].
  intros [<-|Hin].
  - exists x. split; [now left | reflexivity].
  - destruct (IH Hin) as [a [Ha Hc]]. exists a. split; [now right | exact Hc].
Qed.

Lemma in_chars_replace (old new c : ascii) (s : string) :
  In c (chars (replace_char old new s)) ->
  c = new \/ (In c (chars s) /\ c <> old).
Proof.
  induction s as [|x s IH]; simpl; [contradiction|].
  intros [Hc|Hin].
  - destruct (Ascii.eqb x old) eqn:E.
    + left. now symmetry.
    + right. apply Ascii.eqb_neq in E. subst c. split; [now left | exact E].
  - destruct (IH Hin) as [Hnew | [Hs Hne]]; [now left|].
    right. split; [now right | exact Hne].
Qed.

Lemma length_lower (s : string) :
  String.length (PyStr.lower s) = String.length s.
Proof. induction s; simpl; congruence. Qed.

Lemma length_replace_char (old new : ascii) (s : string) :
  String.length (replace_char old new s) = String.length s.
Proof. induction s; simpl; congruence. Qed.

Ltac each_character a :=
  destruct a as [[] [] [] [] [] [] [] []].

(** Lower-casing produces a separator only from that separator. *)
Lemma lower_char_separator (a : ascii) :
  (PyStr.lower_char a = "/"%char -> a = "/"%char) /\
  (PyStr.lower_char a = ":"%char -> a = ":"%char) /\
  (PyStr.lower_char a = " "%char -> a = " "%char).
Proof.
  each_character a; vm_compute; repeat split; intros H;
    solve [reflexivity | discriminate H].
Qed.

(** Lower-casing never produces a capital letter. *)
Lemma lower_char_not_upper (a : ascii) : ~ is_ascii_upper (PyStr.lower_char a).
Proof.
  unfold is_ascii_upper. each_character a; vm_compute; intros [H1 H2];
    repeat match goal with
           | H : S _ <= S _ |- _ => apply le_S_n in H
           | H : S _ <= 0 |- _ => inversion H
           end.
Qed.

Lemma lower_prefixed (s : string) :
  PyStr.lower ("openai-" ++ s) = "openai-" ++ PyStr.lower s.
Proof. reflexivity. Qed.

(** The characters of the safe model name: none is a separator. *)
Lemma safe_model_name_chars (c : ascii) (m : string) :
  In c (chars (replace_char " " "-"
                 (replace_char ":" "-" (replace_char "/" "-" m)))) ->
  c <> "/"%char /\ c <> ":"%char /\ c <> " "%char.
Proof.
  intros H.
  apply in_chars_replace in H as [-> | [H Hsp]];
    [repeat split; discriminate|].
  apply in_chars_replace in H as [-> | [H Hco]];
    [repeat split; discriminate|].
  apply in_chars_replace in H as [-> | [H Hsl]];
    [repeat split; discriminate|].
  repeat split; assumption.
Qed.

(** X25. The vector name of a model is ["openai-"] followed by as many
    characters as the model name has, and it contains no ['/'], no [':'],
    no space and no capital letter A-Z. *)
Theorem vector_name_is_safe (name : string) :
  (exists rest,
      vector_name_of name = "openai-" ++ rest /\
      String.length rest = String.length name) /\
  ~ Spec.Substring "/" (vector_name_of name) /\
  ~ Spec.Substring ":" (vector_name_of name) /\
  ~ Spec.Substring " " (vector_name_of name) /\
  (forall c, is_ascii_upper c ->
             ~ Spec.Substring (String c "") (vector_name_of name)).
Proof.
  unfold vector_name_of. cbv zeta. rewrite lower_prefixed.
  set (safe := replace_char " " "-"
                 (replace_char ":" "-" (replace_char "/" "-" name))).
  assert (Hchars : forall c,
             In c (chars ("openai-" ++ PyStr.lower safe)) ->
             exists a, c = PyStr.lower_char a /\
                       a <> "/"%char /\ a <> ":"%char /\ a <> " "%char).
  { intros c Hin. rewrite chars_app in Hin. apply in_app_or in Hin as [Hin|Hin].
    - exists c. simpl in Hin.
      repeat (destruct Hin as [<-|Hin];
              [split; [reflexivity | repeat split; discriminate]|]).
      contradiction.
    - apply in_chars_lower in Hin as [a [Ha ->]]. exists a.
      split; [reflexivity|]. now apply safe_model_name_chars in Ha. }
  split; [|split; [|split; [|split]]].
  - exists (PyStr.lower safe). split; [reflexivity|].
    unfold safe. now rewrite length_lower, !length_replace_char.
  - intros Hsub. apply substring_char_in, Hchars in Hsub as [a [Ha [H1 _]]].
    symmetry in Ha. now apply lower_char_separator in Ha.
  - intros Hsub. apply substring_char_in, Hchars in Hsub as [a [Ha [_ [H2 _]]]].
    symmetry in Ha. now apply lower_char_separator in Ha.
  - intros Hsub. apply substring_char_in, Hchars in Hsub as [a [Ha [_ [_ H3]]]].
    symmetry in Ha. now apply lower_char_separator in Ha.
  - intros c Hup Hsub.
    apply substring_char_in, Hchars in Hsub as [a [-> _]].
    now apply lower_char_not_upper in Hup.
Qed.

Lemma vector_name_is_safe_witness :
  ~ Spec.Substring (String "B"%char "") (vector_name_of "BAAI/bge small:v1.5").
Proof.
  apply (vector_name_is_safe "BAAI/bge small:v1.5").
  unfold is_ascii_upper. simpl. split; repeat constructor.
Defined.

Lemma replace_char_absent (old new : ascii) (s : string) :
  ~ In old (chars s) -> replace_char old new s = s.
Proof.
  induction s as [|x s IH]; simpl; intros Hno; [reflexivity|].
  destruct (Ascii.eqb x old) eqn:E.
  - apply Ascii.eqb_eq in E. exfalso. apply Hno. now left.
  - rewrite IH; [reflexivity|]. intros Hin. apply Hno. now right.
Qed.

Lemma lower_fixed (s : string) :
  (forall c, In c (chars s) -> PyStr.lower_char c = c) -> PyStr.lower s = s.
Proof.
  induction s as [|x s IH]; simpl; intros Hfix; [reflexivity|].
  rewrite Hfix by now left. rewrite IH; [reflexivity|].
  intros c Hc. apply Hfix. now right.
Qed.

(** X26. On a model name that is already safe (no separator, every
    character its own lower case) the vector name is ["openai-"] followed
    by the model name unchanged. *)
Theorem vector_name_of_safe_name (name : string) :
  (forall c, In c (chars name) ->
             PyStr.lower_char c = c /\
             c <> "/"%char /\ c <> ":"%char /\ c <> " "%char) ->
  vector_name_of name = "openai-" ++ name.
Proof.
  intros Hsafe. unfold vector_name_of. cbv zeta.
  rewrite (replace_char_absent "/" "-" name)
    by (intros Hin; now apply Hsafe in Hin).
  rewrite (replace_char_absent ":" "-" name)
    by (intros Hin; now apply Hsafe in Hin).
  rewrite (replace_char_absent " " "-" name)
    by (intros Hin; now apply Hsafe in Hin).
  rewrite lower_prefixed. f_equal. apply lower_fixed.
  intros c Hc. now apply Hsafe.
Qed.

Lemma vector_name_of_safe_name_witness :
  vector_name_of "text-embedding-3-small" = "openai-text-embedding-3-small".
Proof.
  apply (vector_name_of_safe_name "text-embedding-3-small").
  intros c Hc. simpl in Hc.
  repeat (destruct Hc as [<-|Hc];
          [split; [reflexivity | repeat split; discriminate]|]).
  contradiction.
Defined.
